(** * Microservices-mastery: the API Gateway and the Order Service.

    A shallow embedding of the two programs with coordination logic:

    - the API Gateway (Express application: library middleware, health and
      metrics routes, the four proxied route families, the rate limiting
      middleware, the error handler and the 404 handler, in the order in which
      the source registers them);
    - the Order Service (create, list, get, update status, cancel) over a
      relational store with one pooled connection.

    Conventions.
    - [Date.now()] and [CURRENT_TIMESTAMP] are inputs ([now], milliseconds).
    - JavaScript numbers that carry money or quantities are kept abstract
      (class [JsNumber]); the statements therefore hold for IEEE doubles as
      well as for exact arithmetic.
    - External collaborators are parameters: the backends reached by the
      gateway, the token verifier, the Product service. *)

From Stdlib Require Import ZArith Lia Ascii String.
From stdpp Require Import base option list sorting gmap strings.

Local Open Scope string_scope.
Local Open Scope list_scope.
Local Open Scope Z_scope.

(* ===================================================================== *)
(** * Strings as JavaScript uses them in the gateway *)
(* ===================================================================== *)

Module JsString.

(** ASCII case folding, as performed by a regular expression compiled with
    the [i] flag (Express 4 compiles every route path that way). *)
Definition lower_ascii (c : ascii) : ascii :=
  let n := Ascii.nat_of_ascii c in
  if ((65 <=? n)%nat && (n <=? 90)%nat)%bool
  then Ascii.ascii_of_nat (n + 32)
  else c.

Fixpoint lower (s : string) : string :=
  match s with
  | EmptyString => EmptyString
  | String c s' => String (lower_ascii c) (lower s')
  end.

(** [s.replace(pat, rep)] with a string pattern: the first occurrence only. *)
Definition replace (pat rep s : string) : string :=
  match String.index 0 pat s with
  | None => s
  | Some n =>
      String.substring 0 n s +:+ rep +:+
      String.substring (n + String.length pat)
                       (String.length s - (n + String.length pat)) s
  end.

(** [s.split(' ')]. *)
Fixpoint split_space_aux (cur : string) (s : string) : list string :=
  match s with
  | EmptyString => [cur]
  | String c s' =>
      if Ascii.eqb c " "%char
      then cur :: split_space_aux EmptyString s'
      else split_space_aux (cur +:+ String c EmptyString) s'
  end.

Definition split_space (s : string) : list string :=
  split_space_aux EmptyString s.

(** Truthiness of a string value. *)
Definition truthy (s : string) : bool :=
  negb (String.eqb s EmptyString).

End JsString.

(* ===================================================================== *)
(** * The API Gateway *)
(* ===================================================================== *)

Module Gateway.

(** ** Rate limiter *)

Definition RATE_LIMIT_WINDOW : Z := 60000.
Definition RATE_LIMIT_MAX_REQUESTS : Z := 100.

(** One entry of the [rateLimit] object. *)
Record bucket := Bucket { count : Z; resetTime : Z }.

(** [Math.ceil(d / 1000)] for an integral number of milliseconds [d]. *)
Definition ceil_seconds (d : Z) : Z := - ((- d) / 1000).

Inductive admission :=
| Allow
| Deny (retryAfter : Z).

(** The three-way [if] of the middleware: a fresh window on the first
    request of a key or once [now > resetTime], otherwise [count++]. *)
Definition next_bucket (old : option bucket) (now : Z) : bucket :=
  match old with
  | None => Bucket 1 (now + RATE_LIMIT_WINDOW)
  | Some b =>
      if now >? resetTime b
      then Bucket 1 (now + RATE_LIMIT_WINDOW)
      else Bucket (count b + 1) (resetTime b)
  end.

(** The limiter's decision once the bucket has been updated. *)
Definition decide_bucket (b : bucket) (now : Z) : admission :=
  if count b >? RATE_LIMIT_MAX_REQUESTS
  then Deny (ceil_seconds (resetTime b - now))
  else Allow.

(** The body of the rate limiting middleware on the [rateLimit] table. *)
Definition rate_check (clientIP : string) (now : Z)
    (rateLimit : gmap string bucket) : admission * gmap string bucket :=
  let b := next_bucket (rateLimit !! clientIP) now in
  (decide_bucket b now, <[clientIP := b]> rateLimit).

(** State of the table after a sequence of arrivals [(clientIP, now)]. *)
Fixpoint rate_check_all (reqs : list (string * Z))
    (rateLimit : gmap string bucket) : gmap string bucket :=
  match reqs with
  | [] => rateLimit
  | (ip, now) :: rest => rate_check_all rest (snd (rate_check ip now rateLimit))
  end.

(** Arrivals of one client among a sequence of arrivals. *)
Definition arrivals_of (clientIP : string) (reqs : list (string * Z)) : nat :=
  length (List.filter (fun a => String.eqb (fst a) clientIP) reqs).

(** The first arrival of a window: the key is unknown or its window is over. *)
Definition opens_window (tbl : gmap string bucket) (clientIP : string)
    (now : Z) : Prop :=
  tbl !! clientIP = None
  \/ exists b, tbl !! clientIP = Some b /\ now > resetTime b.

(** ** Requests, responses, collaborators *)

(** The methods modelled; a [HEAD] or an [OPTIONS] pre-flight is not. *)
Inductive http_method := GET | POST | PUT | PATCH | DELETE.

Record request := Request {
  method : http_method;
  path : string;                    (* req.path *)
  ip : string;                      (* req.ip || req.connection.remoteAddress *)
  authorization : option string;    (* req.headers['authorization'] *)
  body : string                     (* req.body, as JSON text *)
}.

Inductive service := UserService | ProductService | OrderService.

(** What [axios] reports: a response of the backend (any status), or a
    network-level failure ([error.response] undefined). *)
Inductive backend_reply :=
| Replied (status : Z) (data : string)
| Unreachable.

Inductive json :=
| JHealth (timestamp : Z)
| JMetrics
| JRelayed (data : string)
| JError (error : string)
| JUnavailable (target : service) (timestamp : Z)
| JTooManyRequests (retryAfter : Z)
| JRouteNotFound (p : string) (m : http_method)
| JFinal.

Record response := Response { status : Z; payload : json }.

Inductive event :=
| RateLimitChecked (clientIP : string) (verdict : admission)
| Forwarded (target : service) (m : http_method) (p : string).

(** The collaborators of the gateway. *)
Record world := World {
  backend : service -> http_method -> string -> string -> option string -> backend_reply;
  jwt_verify : string -> bool
}.

Record state := State {
  rateLimit : gmap string bucket;
  events : list event              (* oldest first *)
}.

Definition emit (e : event) (st : state) : state :=
  State (rateLimit st) (events st ++ [e]).

(** A middleware or route either answers the request or calls [next()]. *)
Inductive step :=
| Next
| Respond (r : response).

Definition layer := world -> request -> Z -> state -> step * state.

(** ** Route matching (Express 4: case-insensitive; [*] matches any suffix,
    an exact path accepts one optional trailing slash) *)

Definition matches_star (pfx p : string) : bool :=
  String.prefix pfx (JsString.lower p).

Definition matches_exact (route p : string) : bool :=
  (String.eqb (JsString.lower p) route
   || String.eqb (JsString.lower p) (route +:+ "/"))%bool.

(** ** Middleware and handlers, in source order *)

(** [helmet()], [cors()], [morgan('combined')], [express.json()]: on the
    requests modelled here (a parsed body, no pre-flight) each of them
    decorates the exchange and calls [next()]. *)
Definition library_middleware : layer := fun _ _ _ st => (Next, st).

Definition authenticateToken (w : world) (req : request) : option response :=
  let token :=
    match authorization req with
    | None => None
    | Some authHeader =>
        if JsString.truthy authHeader
        then JsString.split_space authHeader !! 1%nat
        else None
    end in
  match token with
  | None => Some (Response 401 (JError "Access token required"))
  | Some t =>
      if JsString.truthy t
      then if jwt_verify w t then None
           else Some (Response 403 (JError "Invalid token"))
      else Some (Response 401 (JError "Access token required"))
  end.

Definition health : layer := fun _ req now st =>
  match method req with
  | GET =>
      if matches_exact "/health" (path req)
      then (Respond (Response 200 (JHealth now)), st)
      else (Next, st)
  | _ => (Next, st)
  end.

Definition metrics : layer := fun _ req _ st =>
  match method req with
  | GET =>
      if matches_exact "/metrics" (path req)
      then (Respond (Response 200 JMetrics), st)
      else (Next, st)
  | _ => (Next, st)
  end.

Definition proxyRequest (w : world) (req : request) (now : Z)
    (target : service) (p : string) (st : state) : step * state :=
  let st' := emit (Forwarded target (method req) p) st in
  match backend w target (method req) p (body req) (authorization req) with
  | Replied code data => (Respond (Response code (JRelayed data)), st')
  | Unreachable => (Respond (Response 503 (JUnavailable target now)), st')
  end.

Definition users : layer := fun w req now st =>
  if matches_star "/api/users" (path req)
  then proxyRequest w req now UserService
         ("/users" +:+ JsString.replace "/api/users" EmptyString (path req)) st
  else (Next, st).

Definition auth : layer := fun w req now st =>
  if matches_star "/api/auth" (path req)
  then proxyRequest w req now UserService
         ("/auth" +:+ JsString.replace "/api/auth" EmptyString (path req)) st
  else (Next, st).

Definition products : layer := fun w req now st =>
  if matches_star "/api/products" (path req)
  then proxyRequest w req now ProductService
         ("/products" +:+ JsString.replace "/api/products" EmptyString (path req)) st
  else (Next, st).

Definition orders : layer := fun w req now st =>
  if matches_star "/api/orders" (path req)
  then match authenticateToken w req with
       | Some refusal => (Respond refusal, st)
       | None =>
           proxyRequest w req now OrderService
             ("/orders" +:+ JsString.replace "/api/orders" EmptyString (path req)) st
       end
  else (Next, st).

Definition rate_limiter : layer := fun _ req now st =>
  let '(verdict, table) := rate_check (ip req) now (rateLimit st) in
  let st' := emit (RateLimitChecked (ip req) verdict) (State table (events st)) in
  match verdict with
  | Deny retryAfter =>
      (Respond (Response 429 (JTooManyRequests retryAfter)), st')
  | Allow => (Next, st')
  end.

(** The four-argument error handler: skipped while no layer reports an
    error, and no layer of this model does. *)
Definition error_handler : layer := fun _ _ _ st => (Next, st).

Definition not_found : layer := fun _ req _ st =>
  (Respond (Response 404 (JRouteNotFound (path req) (method req))), st).

(** The application: the layers in registration order. *)
Definition app : list layer :=
  [ library_middleware; library_middleware; library_middleware;
    library_middleware;
    health; metrics;
    users; auth; products; orders;
    rate_limiter;
    error_handler;
    not_found ].

Fixpoint dispatch (stack : list layer) (w : world) (req : request) (now : Z)
    (st : state) : response * state :=
  match stack with
  | [] => (Response 404 JFinal, st)
  | l :: rest =>
      match l w req now st with
      | (Respond r, st') => (r, st')
      | (Next, st') => dispatch rest w req now st'
      end
  end.

Definition gateway := dispatch app.

(** ** Notions used by the statements *)

(** The path belongs to one of the four proxied route families. *)
Definition proxied (p : string) : bool :=
  (matches_star "/api/users" p || matches_star "/api/auth" p
   || matches_star "/api/products" p || matches_star "/api/orders" p)%bool.

Definition is_forward (e : event) : bool :=
  match e with Forwarded _ _ _ => true | RateLimitChecked _ _ => false end.

(** A client that keeps asking for a path no route serves: these requests
    do reach the limiter. *)
Fixpoint repeat_request (n : nat) (w : world) (req : request) (now : Z)
    (st : state) : state :=
  match n with
  | O => st
  | Datatypes.S n' => repeat_request n' w req now (snd (gateway w req now st))
  end.

End Gateway.

(* ===================================================================== *)
(** * The Order Service *)
(* ===================================================================== *)

(** JavaScript numbers used for prices, quantities and totals.  Only the
    operations the handlers apply are named; nothing is assumed about them. *)
Class JsNumber := {
  num : Type;
  num_zero : num;                       (* the literal 0 *)
  num_add : num -> num -> num;          (* sum *)
  num_mul : num -> num -> num           (* product *)
}.

(** What the store's columns take ([NOT NULL], [INTEGER], [DECIMAL(10,2)],
    [VARCHAR(255)]): an [INSERT] whose values a column refuses raises an
    error.  A row keeps the values bound to the statement; how the engine
    represents them (the scale of a [DECIMAL]) is not part of the model. *)
Class Schema {N : JsNumber} := {
  orders_accepts : Z -> num -> option string -> bool;
  order_items_accepts : Z -> string -> string -> num -> num -> bool
}.

(** A product as returned by [GET /products/:id]. *)
Module Product.
Record t {N : JsNumber} := Make { name : string; price : num }.
Arguments Make {N} name price.
End Product.

(** An element of [req.body.items]. *)
Module Item.
Record t {N : JsNumber} := Make { productId : string; quantity : num }.
Arguments Make {N} productId quantity.
End Item.

(** An element of [validatedItems]. *)
Module Validated.
Record t {N : JsNumber} := Make {
  productId : string;
  productName : string;
  quantity : num;
  price : num
}.
Arguments Make {N} productId productName quantity price.
End Validated.

(** A row of table [orders]. *)
Module Order.
Record t {N : JsNumber} := Make {
  id : Z;
  user_id : Z;
  status : string;
  total_amount : num;
  shipping_address : option string;
  created_at : Z;
  updated_at : Z
}.
Arguments Make {N} id user_id status total_amount shipping_address
  created_at updated_at.
End Order.

(** A row of table [order_items]. *)
Module OrderItem.
Record t {N : JsNumber} := Make {
  id : Z;
  order_id : Z;
  product_id : string;
  product_name : string;
  quantity : num;
  price : num;
  created_at : Z
}.
Arguments Make {N} id order_id product_id product_name quantity price
  created_at.
End OrderItem.

(** The handlers run behind [authenticateToken]: [userId] is
    [req.user.userId] of the verified token, [orderId] the key named by the
    route parameter. *)
Module OrderService.
Section Handlers.
Context {N : JsNumber} {S : Schema}.

(** ** Responses *)

(** [{...order, items}] *)
Record order_view := View { order : Order.t; items : list OrderItem.t }.

Inductive json :=
| JError (error : string)
| JCreated (message : string) (completeOrder : option order_view)
| JOrder (o : order_view)
| JOrders (orders : list order_view) (page limit total : Z)
| JUpdated (message : string) (o : option order_view)
| JMessage (message : string).

Record response := Response { code : Z; payload : json }.

(** ** The store and the pooled connection *)

Inductive event :=
| Connect                              (* pool.connect() *)
| Begin
| Lookup (productId : string)          (* axios.get(.../products/:id) *)
| InsertOrder (id : Z)
| InsertItem (order_id : Z) (product_id : string)
| Rejected                             (* an INSERT the store refused *)
| Commit
| Rollback
| Release.                             (* client.release() *)

Record store := Store {
  orders : list Order.t;
  order_items : list OrderItem.t;
  orders_id_seq : Z;                   (* next value of the SERIAL keys *)
  order_items_id_seq : Z;
  transaction : option (list Order.t * list OrderItem.t);
                                       (* rows as of BEGIN while one is open *)
  journal : list event                 (* oldest first *)
}.

(** ** Control flow of an [async] handler *)

Inductive outcome (A : Type) :=
| Normal (a : A)
| Returned (r : response)              (* the response has been sent *)
| Thrown.                              (* an exception is propagating *)
Global Arguments Normal {A} a.
Global Arguments Returned {A} r.
Global Arguments Thrown {A}.

Definition M (A : Type) : Type := store -> outcome A * store.

Global Instance M_ret : MRet M := fun A a s => (Normal a, s).

Global Instance M_bind : MBind M := fun A B f m s =>
  match m s with
  | (Normal a, s') => f a s'
  | (Returned r, s') => (Returned r, s')
  | (Thrown, s') => (Thrown, s')
  end.

Definition respond {A} (status : Z) (j : json) : M A :=
  fun s => (Returned (Response status j), s).

Definition throw {A} : M A := fun s => (Thrown, s).

Definition gets {A} (f : store -> A) : M A := fun s => (Normal (f s), s).

Definition logged (e : event) (s : store) : store :=
  Store (orders s) (order_items s) (orders_id_seq s) (order_items_id_seq s)
        (transaction s) (journal s ++ [e]).

Definition log (e : event) : M unit := fun s => (Normal tt, logged e s).

(** [try { body } catch (error) { handler }] *)
Definition try_catch {A} (body handler : M A) : M A := fun s =>
  match body s with
  | (Thrown, s') => handler s'
  | done => done
  end.

(** [try { body } finally { cleanup }] *)
Definition try_finally {A} (body : M A) (cleanup : M unit) : M A := fun s =>
  let '(o, s') := body s in
  match cleanup s' with
  | (Normal _, s'') => (o, s'')
  | (Returned r, s'') => (Returned r, s'')
  | (Thrown, s'') => (Thrown, s'')
  end.

(** ** Statements on the connection *)

Definition pool_connect : M unit := log Connect.

Definition client_release : M unit := log Release.

(** [BEGIN] inside an open transaction changes nothing (the engine only
    warns); so does [ROLLBACK] outside one. *)
Definition BEGIN : M unit := fun s =>
  (Normal tt,
   logged Begin
     (Store (orders s) (order_items s) (orders_id_seq s) (order_items_id_seq s)
            (match transaction s with
             | None => Some (orders s, order_items s)
             | Some snapshot => Some snapshot
             end)
            (journal s))).

Definition COMMIT : M unit := fun s =>
  (Normal tt,
   logged Commit
     (Store (orders s) (order_items s) (orders_id_seq s) (order_items_id_seq s)
            None (journal s))).

Definition ROLLBACK : M unit := fun s =>
  (Normal tt,
   logged Rollback
     (match transaction s with
      | None => s
      | Some (os, its) =>
          Store os its (orders_id_seq s) (order_items_id_seq s) None (journal s)
      end)).

(** [INSERT INTO orders (user_id, total_amount, shipping_address)
     VALUES ($1, $2, $3) RETURNING *]; [status] takes its default. *)
Definition insert_order (userId : Z) (totalAmount : num)
    (shippingAddress : option string) (now : Z) : M Order.t := fun s =>
  if orders_accepts userId totalAmount shippingAddress
  then
    let row := Order.Make (orders_id_seq s) userId "pending" totalAmount
                          shippingAddress now now in
    (Normal row,
     logged (InsertOrder (Order.id row))
       (Store (orders s ++ [row]) (order_items s) (orders_id_seq s + 1)
              (order_items_id_seq s) (transaction s) (journal s)))
  else (Thrown, logged Rejected s).

(** [INSERT INTO order_items (order_id, product_id, product_name, quantity,
     price) VALUES ($1, $2, $3, $4, $5)] *)
Definition insert_order_item (orderId : Z) (item : Validated.t) (now : Z)
  : M unit := fun s =>
  if order_items_accepts orderId (Validated.productId item)
       (Validated.productName item) (Validated.quantity item)
       (Validated.price item)
  then
    let row := OrderItem.Make (order_items_id_seq s) orderId
                 (Validated.productId item) (Validated.productName item)
                 (Validated.quantity item) (Validated.price item) now in
    (Normal tt,
     logged (InsertItem orderId (Validated.productId item))
       (Store (orders s) (order_items s ++ [row]) (orders_id_seq s)
              (order_items_id_seq s + 1) (transaction s) (journal s)))
  else (Thrown, logged Rejected s).

(** ** The Product Lookup Client *)

(** The Product service as seen by one request: the answer to the [i]-th
    call, for the product id asked; [None] is any failure of the call. *)
Definition catalog := nat -> string -> option Product.t.

Definition fetch (products : catalog) (i : nat) (productId : string)
  : M Product.t :=
  log (Lookup productId);;
  match products i productId with
  | Some product => mret product
  | None => throw
  end.

(** ** Helper of the source: [getOrderById(orderId, userId = null)] *)

(** Truthiness of a number that is not NaN. *)
Definition truthy (n : Z) : bool := negb (n =? 0).

Definition owner_clause (userId : option Z) (o : Order.t) : bool :=
  match userId with
  | Some u => if truthy u then Order.user_id o =? u else true
  | None => true
  end.

Definition items_of (orderId : Z) (s : store) : list OrderItem.t :=
  List.filter (fun it => OrderItem.order_id it =? orderId) (order_items s).

Definition getOrderById (orderId : Z) (userId : option Z) (s : store)
  : option order_view :=
  match List.filter (fun o => (Order.id o =? orderId) && owner_clause userId o)
                    (orders s) with
  | [] => None
  | o :: _ => Some (View o (items_of orderId s))
  end.

(** ** POST /orders *)

(** The [for (const item of items)] loop; [i] counts the calls made. *)
Fixpoint validate (products : catalog) (items : list Item.t) (i : nat)
    (totalAmount : num) (validatedItems : list Validated.t)
  : M (num * list Validated.t) :=
  match items with
  | [] => mret (totalAmount, validatedItems)
  | item :: rest =>
      acc ← try_catch
              (product ← fetch products i (Item.productId item);
               let itemTotal :=
                 num_mul (Product.price product) (Item.quantity item) in
               mret (num_add totalAmount itemTotal,
                     validatedItems ++
                     [Validated.Make (Item.productId item)
                        (Product.name product) (Item.quantity item)
                        (Product.price product)]))
              (respond 400 (JError ("Invalid product: " +:+ Item.productId item)));
      validate products rest (Datatypes.S i) acc.1 acc.2
  end.

(** The [for (const item of validatedItems)] loop. *)
Fixpoint insert_items (orderId : Z) (validatedItems : list Validated.t)
    (now : Z) : M unit :=
  match validatedItems with
  | [] => mret tt
  | item :: rest =>
      insert_order_item orderId item now;;
      insert_items orderId rest now
  end.

(** [items] is [None] when the body has no such field. *)
Definition createOrder (products : catalog) (userId : Z)
    (items : option (list Item.t)) (shippingAddress : option string)
    (now : Z) : M unit :=
  pool_connect;;
  try_finally
    (try_catch
       (BEGIN;;
        match items with
        | None | Some [] => respond 400 (JError "Order items are required")
        | Some its =>
            acc ← validate products its 0%nat num_zero [];
            order ← insert_order userId acc.1 shippingAddress now;
            insert_items (Order.id order) acc.2 now;;
            COMMIT;;
            completeOrder ← gets (getOrderById (Order.id order) None);
            respond 201 (JCreated "Order created successfully" completeOrder)
        end)
       (ROLLBACK;;
        respond 500 (JError "Internal server error")))
    client_release.

(** ** GET /orders *)

Definition status_clause (status : option string) (o : Order.t) : bool :=
  match status with
  | Some wanted =>
      if JsString.truthy wanted then String.eqb (Order.status o) wanted
      else true
  | None => true
  end.

(** [ORDER BY created_at DESC] *)
Definition newest_first (a b : Order.t) : Prop :=
  Order.created_at b <= Order.created_at a.

Global Instance newest_first_dec : RelDecision newest_first :=
  fun a b => decide (Order.created_at b <= Order.created_at a).

(** [SELECT * FROM orders WHERE user_id = $1 [AND status = $2]
     ORDER BY created_at DESC LIMIT $l OFFSET $o]; the engine refuses a
    negative [LIMIT] or [OFFSET]. *)
Definition select_page (userId : Z) (status : option string)
    (limit offset : Z) : M (list Order.t) := fun s =>
  if ((limit <? 0) || (offset <? 0))%bool
  then (Thrown, s)
  else
    (Normal
       (take (Z.to_nat limit)
          (drop (Z.to_nat offset)
             (merge_sort newest_first
                (List.filter
                   (fun o => (Order.user_id o =? userId) && status_clause status o)%bool
                   (orders s))))),
     s).

(** [page], [limit] and [status] are [None] when the query string does not
    give them; when given, [page] and [limit] are integer numerals. *)
Definition listOrders (userId : Z) (page limit : option Z)
    (status : option string) : M unit :=
  try_catch
    (let page := default 1 page in
     let limit := default 10 limit in
     rows ← select_page userId status limit ((page - 1) * limit);
     orders ← gets (fun s =>
                 map (fun order => View order (items_of (Order.id order) s)) rows);
     respond 200 (JOrders orders page limit (Z.of_nat (length rows))))
    (respond 500 (JError "Internal server error")).

(** ** GET /orders/:id *)

Definition getOrder (userId orderId : Z) : M unit :=
  try_catch
    (order ← gets (getOrderById orderId (Some userId));
     match order with
     | None => respond 404 (JError "Order not found")
     | Some o => respond 200 (JOrder o)
     end)
    (respond 500 (JError "Internal server error")).

(** ** PATCH /orders/:id/status and DELETE /orders/:id *)

Definition validStatuses : list string :=
  ["pending"; "confirmed"; "processing"; "shipped"; "delivered"; "cancelled"].

Definition includes (l : list string) (x : string) : bool :=
  existsb (String.eqb x) l.

Definition set_status (newStatus : string) (now : Z) (o : Order.t) : Order.t :=
  Order.Make (Order.id o) (Order.user_id o) newStatus (Order.total_amount o)
             (Order.shipping_address o) (Order.created_at o) now.

(** [UPDATE orders SET status = $1, updated_at = CURRENT_TIMESTAMP
     WHERE <where> RETURNING *] *)
Definition update_orders (newStatus : string) (now : Z)
    (where_ : Order.t -> bool) : M (list Order.t) := fun s =>
  (Normal (map (set_status newStatus now) (List.filter where_ (orders s))),
   Store (map (fun o => if where_ o then set_status newStatus now o else o)
              (orders s))
         (order_items s) (orders_id_seq s) (order_items_id_seq s)
         (transaction s) (journal s)).

Definition updateStatus (userId orderId : Z) (status : string) (now : Z)
  : M unit :=
  try_catch
    (if negb (includes validStatuses status)
     then respond 400 (JError "Invalid status")
     else
       rows ← update_orders status now
                (fun o => (Order.id o =? orderId) && (Order.user_id o =? userId))%bool;
       match rows with
       | [] => respond 404 (JError "Order not found")
       | _ :: _ =>
           order ← gets (getOrderById orderId (Some userId));
           respond 200 (JUpdated "Order status updated successfully" order)
       end)
    (respond 500 (JError "Internal server error")).

Definition cancellable (userId orderId : Z) (o : Order.t) : bool :=
  ((Order.id o =? orderId) && (Order.user_id o =? userId)
   && includes ["pending"; "confirmed"] (Order.status o))%bool.

Definition cancelOrder (userId orderId : Z) (now : Z) : M unit :=
  try_catch
    (rows ← update_orders "cancelled" now (cancellable userId orderId);
     match rows with
     | [] => respond 404 (JError "Order not found or cannot be cancelled")
     | _ :: _ => respond 200 (JMessage "Order cancelled successfully")
     end)
    (respond 500 (JError "Internal server error")).

(** ** Notions used by the statements *)

(** The running sum of the loop: [((0 + x1) + x2) + ...]. *)
Definition sum_in_order (xs : list num) : num := fold_left num_add xs num_zero.


Definition initial : store := Store [] [] 1 1 None [].

(** The answers of the Product service to the calls of one validation
    loop that starts at call [i]. *)
Fixpoint answers (products : catalog) (i : nat) (items : list Item.t)
  : list (option Product.t) :=
  match items with
  | [] => []
  | item :: rest =>
      products i (Item.productId item) :: answers products (Datatypes.S i) rest
  end.

Definition validated_item (item : Item.t) (product : Product.t) : Validated.t :=
  Validated.Make (Item.productId item) (Product.name product)
                 (Item.quantity item) (Product.price product).

Definition item_total (item : Item.t) (product : Product.t) : num :=
  num_mul (Product.price product) (Item.quantity item).

Definition lookups (items : list Item.t) : list event :=
  map (fun item => Lookup (Item.productId item)) items.

Definition accepted (orderId : Z) (v : Validated.t) : bool :=
  order_items_accepts orderId (Validated.productId v) (Validated.productName v)
                      (Validated.quantity v) (Validated.price v).

(** The rows that [insert_items] appends, keys drawn from [seq] on. *)
Fixpoint item_rows (orderId seq now : Z) (vs : list Validated.t)
  : list OrderItem.t :=
  match vs with
  | [] => []
  | v :: rest =>
      OrderItem.Make seq orderId (Validated.productId v)
                     (Validated.productName v) (Validated.quantity v)
                     (Validated.price v) now
      :: item_rows orderId (seq + 1) now rest
  end.

Definition inserts (orderId : Z) (vs : list Validated.t) : list event :=
  map (fun v => InsertItem orderId (Validated.productId v)) vs.

Definition journaled (evs : list event) (s : store) : store :=
  Store (orders s) (order_items s) (orders_id_seq s) (order_items_id_seq s)
        (transaction s) (journal s ++ evs).

(** The rows a [ROLLBACK] goes back to once [BEGIN] has been issued in [s]. *)
Definition rows_at_begin (s : store) : list Order.t * list OrderItem.t :=
  match transaction s with
  | None => (orders s, order_items s)
  | Some snapshot => snapshot
  end.

(** The total the loop accumulates for [items] answered by [prods]. *)
Definition order_total (items : list Item.t) (prods : list Product.t) : num :=
  sum_in_order (zip_with item_total items prods).

(** The row [insert_order] appends in store [s]. *)
Definition new_order (s : store) (userId : Z) (total : num)
    (shippingAddress : option string) (now : Z) : Order.t :=
  Order.Make (orders_id_seq s) userId "pending" total shippingAddress now now.





(** An order of caller 7 created at [t], for closed examples. *)
Definition sample_order (i t : Z) : Order.t :=
  Order.Make i 7 "pending" num_zero None t t.

Definition is_closing (e : event) : bool :=
  match e with
  | Commit | Rollback => true
  | _ => false
  end.

(** The discipline on the journal of one request as the specification
    words it: the transaction is opened only once the lookups are over, and
    whatever precedes a release holds exactly one closing statement. *)
Definition opened_after_validation (j : list event) : Prop :=
  forall before after,
    j = before ++ Begin :: after -> forall p, Lookup p ∉ after.

Definition closed_once_before_release (j : list event) : Prop :=
  forall before after,
    j = before ++ Release :: after ->
    length (List.filter is_closing before) = 1%nat.

(** The caller's orders, all pages together. *)
Definition orders_of (userId : Z) (s : store) : list Order.t :=
  List.filter (fun o => Order.user_id o =? userId) (orders s).

Definition is_write (e : event) : bool :=
  match e with
  | InsertOrder _ | InsertItem _ _ | Rejected => true
  | _ => false
  end.

(** Events that neither acquire nor open nor release. *)
Definition is_inner (e : event) : bool :=
  match e with
  | Connect | Begin | Release => false
  | _ => true
  end.

(** What the store's columns said of a row of [order_items]. *)
Definition row_accepted (row : OrderItem.t) : bool :=
  order_items_accepts (OrderItem.order_id row) (OrderItem.product_id row)
    (OrderItem.product_name row) (OrderItem.quantity row)
    (OrderItem.price row).

End Handlers.
End OrderService.

(* ===================================================================== *)
(** * Concrete numbers for closed examples *)
(* ===================================================================== *)

Module Concrete.

(** Integral amounts: arithmetic on them is exact in a double as long as it
    stays below 2^53, so [Z] computes what the service computes. *)
Definition integral : JsNumber :=
  {| num := Z; num_zero := 0; num_add := Z.add; num_mul := Z.mul |}.

(** A store whose columns take every integral value. *)
Definition lenient : @Schema integral :=
  {| orders_accepts := fun _ _ _ => true;
     order_items_accepts := fun _ _ _ _ _ => true |}.

(** A store that refuses one product id on [order_items] (any column
    failure has the same effect on the handler). *)
Definition refusing (bad : string) : @Schema integral :=
  {| orders_accepts := fun _ _ _ => true;
     order_items_accepts := fun _ pid _ _ _ => negb (String.eqb pid bad) |}.

(** A Product service that knows [p1] (50) and [p2] (7) on every call. *)
Definition shop : @OrderService.catalog integral := fun _ productId =>
  if String.eqb productId "p1" then Some (Product.Make (N := integral) "Lamp" 50)
  else if String.eqb productId "p2" then Some (Product.Make (N := integral) "Pen" 7)
  else None.


Definition item (productId : string) (quantity : Z) : @Item.t integral :=
  Item.Make (N := integral) productId quantity.

Definition product (name : string) (price : Z) : @Product.t integral :=
  Product.Make (N := integral) name price.

Definition order_row (id user_id : Z) (status : string) (total_amount : Z)
    (shipping_address : option string) (created_at updated_at : Z)
  : @Order.t integral :=
  Order.Make (N := integral) id user_id status total_amount shipping_address
             created_at updated_at.

Definition line_row (id order_id : Z) (product_id product_name : string)
    (quantity price created_at : Z) : @OrderItem.t integral :=
  OrderItem.Make (N := integral) id order_id product_id product_name quantity
                 price created_at.

(** A creation request of caller 7 on the empty store, at instant 1000. *)
Definition create (sch : @Schema integral) (items : list (@Item.t integral)) :=
  OrderService.createOrder (N := integral) (S := sch) shop 7 (Some items)
    (Some "{}") 1000 (OrderService.initial (N := integral)).

(** Order 1 of caller 7 (delivered), order 2 of caller 8 (pending), order 3
    of caller 7 (confirmed). *)
Definition ledger : @OrderService.store integral :=
  OrderService.Store
    [order_row 1 7 "delivered" 100 None 10 10;
     order_row 2 8 "pending" 21 None 20 20;
     order_row 3 7 "confirmed" 7 None 30 30]
    [line_row 1 1 "p1" "Lamp" 2 50 10;
     line_row 2 2 "p2" "Pen" 3 7 20;
     line_row 3 3 "p2" "Pen" 1 7 30]
    4 4 None [].

End Concrete.

(* ===================================================================== *)
(** * Further notions on the gateway *)
(* ===================================================================== *)

Module GatewayNotions.
Import Gateway.

(** The string holds no space. *)
Fixpoint spaceless (s : string) : bool :=
  match s with
  | EmptyString => true
  | String c s' => (negb (Ascii.eqb c " "%char) && spaceless s')%bool
  end.

(** [/health] or [/metrics], which only [GET] serves. *)
Definition probed (req : request) : bool :=
  match method req with
  | GET => (matches_exact "/health" (path req)
            || matches_exact "/metrics" (path req))%bool
  | _ => false
  end.


(** What a backend's answer becomes at the gateway. *)
Definition relayed (target : service) (now : Z) (reply : backend_reply)
  : response :=
  match reply with
  | Replied code data => Response code (JRelayed data)
  | Unreachable => Response 503 (JUnavailable target now)
  end.

(** The arrivals of one client, in order. *)
Definition arrivals_from (clientIP : string) (reqs : list (string * Z))
  : list (string * Z) :=
  List.filter (fun a => String.eqb (fst a) clientIP) reqs.

(** The verdicts given to a sequence of arrivals, in order. *)
Fixpoint verdicts (reqs : list (string * Z)) (tbl : gmap string bucket)
  : list (string * admission) :=
  match reqs with
  | [] => []
  | (clientIP, now) :: rest =>
      (clientIP, fst (rate_check clientIP now tbl))
      :: verdicts rest (snd (rate_check clientIP now tbl))
  end.

(** The verdicts given to one client. *)
Definition verdicts_for (clientIP : string) (vs : list (string * admission))
  : list admission :=
  map snd (List.filter (fun v => String.eqb (fst v) clientIP) vs).

(** The path belongs to a family that is forwarded without a token check. *)
Definition public (p : string) : bool :=
  (matches_star "/api/users" p || matches_star "/api/auth" p
   || matches_star "/api/products" p)%bool.

End GatewayNotions.

(* ===================================================================== *)
(** * Further notions on the Order Service *)
(* ===================================================================== *)

Module OrderNotions.
Import OrderService.
Section Notions.
Context {N : JsNumber} {S : Schema}.

(** What no handler writes once the row exists: key, owner, total, address
    and creation time. *)
Definition frozen (o : Order.t) : Z * Z * num * option string * Z :=
  (Order.id o, Order.user_id o, Order.total_amount o,
   Order.shipping_address o, Order.created_at o).

(** Keys are below their sequence and unique; every item row refers to an
    order row. *)
Definition rows_wf (seq item_seq : Z) (os : list Order.t)
    (its : list OrderItem.t) : Prop :=
  Forall (fun o => Order.id o < seq) os
  /\ NoDup (map Order.id os)
  /\ Forall (fun it => OrderItem.id it < item_seq) its
  /\ NoDup (map OrderItem.id its)
  /\ Forall (fun it => exists o, o ∈ os /\ Order.id o = OrderItem.order_id it) its.

(** A store as the handlers leave it between two requests: well-formed rows
    and, when a transaction was left open, a snapshot that differs from the
    rows by statuses and update times only. *)
Definition store_wf (s : store) : Prop :=
  rows_wf (orders_id_seq s) (order_items_id_seq s) (orders s) (order_items s)
  /\ match transaction s with
     | None => True
     | Some (os, its) =>
         map frozen os = map frozen (orders s) /\ its = order_items s
     end.

(** The events a request adds to the journal hold no [COMMIT] and no
    [ROLLBACK]. *)
Definition unclosed (work : list event) : Prop :=
  existsb is_closing work = false.

(** [ORDER BY created_at DESC] on the orders of a page. *)
Definition newest_view_first (a b : order_view) : Prop :=
  Order.created_at (order b) <= Order.created_at (order a).

(** The orders a listing selects before it is cut into pages. *)
Definition selected (userId : Z) (status : option string) (s : store)
  : list Order.t :=
  List.filter (fun o => (Order.user_id o =? userId) && status_clause status o)%bool
              (orders s).

End Notions.
End OrderNotions.

(* ===================================================================== *)
(** * The User Service *)
(* ===================================================================== *)

(** A row of table [users]. *)
Module UserRow.
Record t := Make {
  id : Z;
  email : string;
  password : string;                   (* the bcrypt hash *)
  first_name : option string;
  last_name : option string;
  created_at : Z;
  updated_at : Z
}.
End UserRow.

(** The [user] object of the answers; [login] gives no [createdAt]. *)
Module Profile.
Record t := Make {
  id : Z;
  email : string;
  firstName : option string;
  lastName : option string;
  createdAt : option Z
}.
End Profile.

Module UserService.

(** What [jwt.verify] gives: the payload, or the name of the error thrown. *)
Inductive verification :=
| Decoded (userId : Z) (email : string)
| Failed (name : string).

(** The libraries and the store's column checks. *)
Record platform := Platform {
  bcrypt_hash : string -> string -> string;   (* password, salt drawn *)
  bcrypt_compare : string -> string -> bool;  (* password, stored hash *)
  jwt_sign : Z -> string -> Z -> string;      (* userId, email, instant *)
  jwt_verify : string -> Z -> verification;   (* token, instant *)
  users_accepts : string -> string -> option string -> option string -> bool
}.

Record store := Store {
  users : list UserRow.t;
  users_id_seq : Z
}.

Inductive json :=
| JError (error : string)
| JSession (message : string) (user : Profile.t) (token : string)
| JProfile (user : Profile.t)
| JUsers (users : list Profile.t) (total : Z).

Record response := Response { code : Z; payload : json }.

(** [!value] for a field of the body that is absent or a string. *)
Definition missing (field : option string) : bool :=
  match field with
  | None => true
  | Some v => negb (JsString.truthy v)
  end.

(** [SELECT ... FROM users WHERE email = $1] *)
Definition by_email (email : string) (s : store) : list UserRow.t :=
  List.filter (fun u => String.eqb (UserRow.email u) email) (users s).

(** [SELECT ... FROM users WHERE id = $1] *)
Definition by_id (userId : Z) (s : store) : list UserRow.t :=
  List.filter (fun u => UserRow.id u =? userId) (users s).

(** POST /auth/register *)
Definition register (P : platform) (email password firstName lastName : option string)
    (salt : string) (now : Z) (s : store) : response * store :=
  if (missing email || missing password)%bool
  then (Response 400 (JError "Email and password required"), s)
  else
    let email := default EmptyString email in
    let password := default EmptyString password in
    match by_email email s with
    | _ :: _ => (Response 409 (JError "User already exists"), s)
    | [] =>
        let hashedPassword := bcrypt_hash P password salt in
        if users_accepts P email hashedPassword firstName lastName
        then
          let user := UserRow.Make (users_id_seq s) email hashedPassword
                                   firstName lastName now now in
          (Response 201
             (JSession "User created successfully"
                (Profile.Make (UserRow.id user) (UserRow.email user)
                   (UserRow.first_name user) (UserRow.last_name user)
                   (Some (UserRow.created_at user)))
                (jwt_sign P (UserRow.id user) (UserRow.email user) now)),
           Store (users s ++ [user]) (users_id_seq s + 1))
        else (Response 500 (JError "Internal server error"), s)
    end.

(** POST /auth/login *)
Definition login (P : platform) (email password : option string) (now : Z)
    (s : store) : response :=
  if (missing email || missing password)%bool
  then Response 400 (JError "Email and password required")
  else
    let email := default EmptyString email in
    let password := default EmptyString password in
    match by_email email s with
    | [] => Response 401 (JError "Invalid credentials")
    | user :: _ =>
        if bcrypt_compare P password (UserRow.password user)
        then Response 200
               (JSession "Login successful"
                  (Profile.Make (UserRow.id user) (UserRow.email user)
                     (UserRow.first_name user) (UserRow.last_name user) None)
                  (jwt_sign P (UserRow.id user) (UserRow.email user) now))
        else Response 401 (JError "Invalid credentials")
    end.

(** [authHeader && authHeader.split(' ')[1]], with [None] for a falsy
    result. *)
Definition bearer (authorization : option string) : option string :=
  match authorization with
  | None => None
  | Some authHeader =>
      if JsString.truthy authHeader
      then match JsString.split_space authHeader !! 1%nat with
           | Some token => if JsString.truthy token then Some token else None
           | None => None
           end
      else None
  end.

(** GET /users/profile *)
Definition profile (P : platform) (authorization : option string) (now : Z)
    (s : store) : response :=
  match bearer authorization with
  | None => Response 401 (JError "Access token required")
  | Some token =>
      match jwt_verify P token now with
      | Failed name =>
          if String.eqb name "JsonWebTokenError"
          then Response 403 (JError "Invalid token")
          else Response 500 (JError "Internal server error")
      | Decoded userId _ =>
          match by_id userId s with
          | [] => Response 404 (JError "User not found")
          | user :: _ =>
              Response 200
                (JProfile
                   (Profile.Make (UserRow.id user) (UserRow.email user)
                      (UserRow.first_name user) (UserRow.last_name user)
                      (Some (UserRow.created_at user))))
          end
      end
  end.

(** [ORDER BY created_at DESC] *)
Definition joined_later (a b : UserRow.t) : Prop :=
  UserRow.created_at b <= UserRow.created_at a.

Global Instance joined_later_dec : RelDecision joined_later :=
  fun a b => decide (UserRow.created_at b <= UserRow.created_at a).

(** GET /users *)
Definition getUsers (s : store) : response :=
  let rows := merge_sort joined_later (users s) in
  Response 200
    (JUsers
       (map (fun user =>
               Profile.Make (UserRow.id user) (UserRow.email user)
                 (UserRow.first_name user) (UserRow.last_name user)
                 (Some (UserRow.created_at user)))
            rows)
       (Z.of_nat (length rows))).

(** ** Notions used by the statements *)

(** Keys are below the sequence; keys and e-mail addresses are unique. *)
Definition users_wf (s : store) : Prop :=
  Forall (fun u => UserRow.id u < users_id_seq s) (users s)
  /\ NoDup (map UserRow.id (users s))
  /\ NoDup (map UserRow.email (users s)).

(** The public view of a row, as [register], [profile] and [GET /users]
    give it. *)
Definition public_view (user : UserRow.t) : Profile.t :=
  Profile.Make (UserRow.id user) (UserRow.email user)
    (UserRow.first_name user) (UserRow.last_name user)
    (Some (UserRow.created_at user)).

Definition initial : store := Store [] 1.

End UserService.

(* ===================================================================== *)
(** * The Product Service *)
(* ===================================================================== *)

(** [!x] on a number: which numbers are truthy (all but [0] and [NaN]). *)
Class JsTruthy {N : JsNumber} := {
  num_truthy : num -> bool
}.

(** A document of collection [products]. *)
Module ProductDoc.
Record t {N : JsNumber} := Make {
  _id : string;
  name : string;
  description : string;
  price : num;
  category : string;
  stock : num;
  images : list string;
  tags : list string;
  isActive : bool;
  createdAt : Z;
  updatedAt : Z
}.
Arguments Make {N} _id name description price category stock images tags
  isActive createdAt updatedAt.
End ProductDoc.

(** The body of [POST /products], each field absent or of its schema type. *)
Module ProductBody.
Record t {N : JsNumber} := Make {
  name : option string;
  description : option string;
  price : option num;
  category : option string;
  stock : option num;
  images : option (list string);
  tags : option (list string)
}.
Arguments Make {N} name description price category stock images tags.
End ProductBody.

Module ProductService.
Section Handlers.
Context {N : JsNumber} {T : JsTruthy}.

(** Whether the driver casts a string to an [ObjectId]. *)
Variable castable : string -> bool.

Definition collection := list ProductDoc.t.

Inductive json :=
| JError (error : string)
| JProduct (product : ProductDoc.t)
| JSaved (message : string) (product : ProductDoc.t)
| JMessage (message : string).

Record response := Response { code : Z; payload : json }.

(** [!value] on a field of the body. *)
Definition missing (field : option string) : bool :=
  match field with
  | None => true
  | Some v => negb (JsString.truthy v)
  end.

Definition missing_num (field : option num) : bool :=
  match field with
  | None => true
  | Some n => negb (num_truthy n)
  end.

(** [stock || 0] *)
Definition or_zero (field : option num) : num :=
  match field with
  | Some n => if num_truthy n then n else num_zero
  | None => num_zero
  end.

Definition has_id (id : string) (p : ProductDoc.t) : bool :=
  String.eqb (ProductDoc._id p) id.

(** [Product.findById(id)]: [None] is the [CastError] thrown. *)
Definition findById (id : string) (c : collection)
  : option (option ProductDoc.t) :=
  if castable id then Some (List.find (has_id id) c) else None.

(** The document with key [id] replaced by its image under [set]. *)
Fixpoint update_one (id : string) (set : ProductDoc.t -> ProductDoc.t)
    (c : collection) : collection :=
  match c with
  | [] => []
  | p :: rest =>
      if has_id id p then set p :: rest else p :: update_one id set rest
  end.

(** [Product.findByIdAndUpdate(id, set, { new: true })] *)
Definition findByIdAndUpdate (id : string)
    (set : ProductDoc.t -> ProductDoc.t) (c : collection)
  : option (option ProductDoc.t) * collection :=
  match findById id c with
  | None => (None, c)
  | Some None => (Some None, c)
  | Some (Some p) => (Some (Some (set p)), update_one id set c)
  end.

(** GET /products/:id *)
Definition getProduct (id : string) (c : collection) : response :=
  match findById id c with
  | None => Response 400 (JError "Invalid product ID")
  | Some None => Response 404 (JError "Product not found")
  | Some (Some product) =>
      if ProductDoc.isActive product
      then Response 200 (JProduct product)
      else Response 404 (JError "Product not found")
  end.

(** POST /products; [fresh] is the key drawn for the new document, and
    [save] fails on a key already in use. *)
Definition createProduct (body : ProductBody.t) (fresh : string) (now : Z)
    (c : collection) : response * collection :=
  if (missing (ProductBody.name body) || missing (ProductBody.description body)
      || missing_num (ProductBody.price body)
      || missing (ProductBody.category body))%bool
  then (Response 400
          (JError "Name, description, price, and category are required"), c)
  else
    let product :=
      ProductDoc.Make fresh
        (default EmptyString (ProductBody.name body))
        (default EmptyString (ProductBody.description body))
        (default num_zero (ProductBody.price body))
        (default EmptyString (ProductBody.category body))
        (or_zero (ProductBody.stock body))
        (default [] (ProductBody.images body))
        (default [] (ProductBody.tags body))
        true now now in
    if existsb (has_id fresh) c
    then (Response 500 (JError "Internal server error"), c)
    else (Response 201 (JSaved "Product created successfully" product),
          c ++ [product]).

(** The update of the soft delete. *)
Definition deactivate (now : Z) (p : ProductDoc.t) : ProductDoc.t :=
  ProductDoc.Make (ProductDoc._id p) (ProductDoc.name p)
    (ProductDoc.description p) (ProductDoc.price p) (ProductDoc.category p)
    (ProductDoc.stock p) (ProductDoc.images p) (ProductDoc.tags p)
    false (ProductDoc.createdAt p) now.

(** DELETE /products/:id *)
Definition deleteProduct (id : string) (now : Z) (c : collection)
  : response * collection :=
  match findByIdAndUpdate id (deactivate now) c with
  | (None, c') => (Response 400 (JError "Invalid product ID"), c')
  | (Some None, c') => (Response 404 (JError "Product not found"), c')
  | (Some (Some _), c') =>
      (Response 200 (JMessage "Product deleted successfully"), c')
  end.

(** ** Notions used by the statements *)

(** What [axios.get] hands the Order service: the body of a 2xx answer;
    any other answer is an exception. *)
Definition axios_get (r : response) : option Product.t :=
  if ((200 <=? code r) && (code r <? 300))%bool
  then match payload r with
       | JProduct p => Some (Product.Make (ProductDoc.name p) (ProductDoc.price p))
       | _ => None
       end
  else None.

(** The same document, whatever its activity flag and update stamp. *)
Definition same_product (p q : ProductDoc.t) : Prop :=
  ProductDoc._id p = ProductDoc._id q
  /\ ProductDoc.name p = ProductDoc.name q
  /\ ProductDoc.description p = ProductDoc.description q
  /\ ProductDoc.price p = ProductDoc.price q
  /\ ProductDoc.category p = ProductDoc.category q
  /\ ProductDoc.stock p = ProductDoc.stock q
  /\ ProductDoc.images p = ProductDoc.images q
  /\ ProductDoc.tags p = ProductDoc.tags q
  /\ ProductDoc.createdAt p = ProductDoc.createdAt q.

End Handlers.
End ProductService.

(* ===================================================================== *)
(** * Sample instances of the User and Product services *)
(* ===================================================================== *)

Module ConcreteServices.

(** Numbers are integers; zero is the falsy one. *)
Global Instance nonzero : JsTruthy (N := Concrete.integral) := {
  num_truthy := fun n : Z => negb (n =? 0)
}.

(** Keys of 24 characters are castable. *)
Definition hex24 (id : string) : bool := (String.length id =? 24)%nat.

Definition body (name description : string) (price : Z) (category : string)
    (stock : option Z) : @ProductBody.t Concrete.integral :=
  ProductBody.Make (N := Concrete.integral) (Some name) (Some description)
    (Some (price : @num Concrete.integral)) (Some category)
    (stock : option (@num Concrete.integral)) None None.

Definition mug := body "Mug" "A mug" 5 "kitchen" None.

Definition free_mug := body "Mug" "A mug" 0 "kitchen" (Some 3).

Definition key : string := "64b7f0c2a1d3e4f5a6b7c8d9".

(** A platform with one fixed token, owned by user 1. *)
Definition platform : UserService.platform :=
  UserService.Platform
    (fun password salt => "$2a$10$" +:+ password)
    (fun password hash => String.eqb hash ("$2a$10$" +:+ password))
    (fun userId email issued => "eyJ.u1.sig")
    (fun token now =>
       if String.eqb token "eyJ.u1.sig"
       then if now <? 86400 then UserService.Decoded 1 "ann@example.org"
            else UserService.Failed "TokenExpiredError"
       else UserService.Failed "JsonWebTokenError")
    (fun email password firstName lastName => (String.length email <=? 255)%nat).

Definition ann : UserService.response * UserService.store :=
  UserService.register platform (Some "ann@example.org") (Some "s3cret")
    (Some "Ann") None "salt" 10 UserService.initial.

(** The collection after one creation, and after the deletion of its
    document. *)
Definition stocked : ProductService.collection (N := Concrete.integral) :=
  snd (ProductService.createProduct (T := nonzero) mug key 5 []).

Definition cleared : ProductService.collection (N := Concrete.integral) :=
  snd (ProductService.deleteProduct hex24 key 6 stocked).

End ConcreteServices.

(* ===================================================================== *)
(** * Facts about the rate limiter *)
(* ===================================================================== *)

Module RateLimiterFacts.
Import Gateway.

Lemma ceil_seconds_bounds d :
  0 <= d <= RATE_LIMIT_WINDOW -> 0 <= ceil_seconds d <= 60.
Proof.
  unfold ceil_seconds, RATE_LIMIT_WINDOW. intros [Hlo Hhi].
  assert (-60 <= (- d) / 1000) by (apply Z.div_le_lower_bound; lia).
  assert ((- d) / 1000 <= 0) by (apply Z.div_le_upper_bound; lia).
  lia.
Qed.

(** [ceil_seconds d] is the least number of whole seconds covering [d] ms. *)
Lemma ceil_seconds_least d :
  d <= 1000 * ceil_seconds d /\ 1000 * (ceil_seconds d - 1) < d.
Proof.
  unfold ceil_seconds.
  pose proof (Z.div_mod (- d) 1000 ltac:(lia)) as Hdm.
  pose proof (Z.mod_pos_bound (- d) 1000 ltac:(lia)) as Hm.
  lia.
Qed.

Lemma rate_check_table clientIP now tbl :
  snd (rate_check clientIP now tbl)
  = <[clientIP := next_bucket (tbl !! clientIP) now]> tbl.
Proof. reflexivity. Qed.

(** A request of another client leaves a client's bucket alone. *)
Lemma rate_check_other clientIP other now (tbl : gmap string bucket) :
  other <> clientIP ->
  snd (rate_check other now tbl) !! clientIP = tbl !! clientIP.
Proof. intros Hne. rewrite rate_check_table. by rewrite lookup_insert_ne. Qed.

Lemma rate_check_same clientIP now (tbl : gmap string bucket) :
  snd (rate_check clientIP now tbl) !! clientIP
  = Some (next_bucket (tbl !! clientIP) now).
Proof. rewrite rate_check_table. by rewrite lookup_insert_eq. Qed.

(** Inside a window every arrival of the client adds one to its count and
    keeps the window's end, whatever the other clients do meanwhile. *)
Lemma rate_check_all_in_window clientIP c r reqs :
  forall tbl : gmap string bucket,
    tbl !! clientIP = Some (Bucket c r) ->
    (forall t, (clientIP, t) ∈ reqs -> t <= r) ->
    rate_check_all reqs tbl !! clientIP
    = Some (Bucket (c + Z.of_nat (arrivals_of clientIP reqs)) r).
Proof.
  revert c. induction reqs as [|[other t] reqs IH]; intros c tbl Hb Hin.
  - cbn. rewrite Hb. do 2 f_equal. lia.
  - cbn [rate_check_all]. unfold arrivals_of. cbn [List.filter fst].
    destruct (String.eqb other clientIP) eqn:E.
    + apply String.eqb_eq in E. subst other.
      assert (t <= r) as Ht by (apply Hin; left).
      rewrite (IH (c + 1)).
      * cbn [length]. do 2 f_equal. unfold arrivals_of. lia.
      * rewrite rate_check_same, Hb. cbn.
        destruct (t >? r) eqn:G; [lia | done].
      * intros t' Ht'. apply Hin. by right.
    + apply String.eqb_neq in E.
      rewrite (IH c); [done | | ].
      * by rewrite rate_check_other.
      * intros t' Ht'. apply Hin. by right.
Qed.

Lemma next_bucket_opens tbl clientIP now :
  opens_window tbl clientIP now ->
  next_bucket (tbl !! clientIP) now = Bucket 1 (now + RATE_LIMIT_WINDOW).
Proof.
  intros [-> | (b & -> & Hb)]; [done |].
  cbn. destruct (now >? resetTime b) eqn:G; [done | lia].
Qed.

(** Verdict for an arrival at [t] after the window was opened at [t0] and
    [reqs] (any clients) arrived since. *)
Lemma verdict_in_window tbl clientIP t0 reqs t :
  opens_window tbl clientIP t0 ->
  (forall t', (clientIP, t') ∈ reqs -> t' <= t0 + RATE_LIMIT_WINDOW) ->
  t <= t0 + RATE_LIMIT_WINDOW ->
  rate_check clientIP t (rate_check_all ((clientIP, t0) :: reqs) tbl)
  = (decide_bucket
       (Bucket (2 + Z.of_nat (arrivals_of clientIP reqs))
               (t0 + RATE_LIMIT_WINDOW)) t,
     <[clientIP := Bucket (2 + Z.of_nat (arrivals_of clientIP reqs))
                          (t0 + RATE_LIMIT_WINDOW)]>
       (rate_check_all ((clientIP, t0) :: reqs) tbl)).
Proof.
  intros Hopen Hreqs Ht. cbn [rate_check_all].
  unfold rate_check at 1.
  rewrite (rate_check_all_in_window clientIP 1 (t0 + RATE_LIMIT_WINDOW)); [| | done].
  - cbn [next_bucket resetTime count].
    destruct (t >? t0 + RATE_LIMIT_WINDOW) eqn:G; [lia |].
    by replace (1 + Z.of_nat (arrivals_of clientIP reqs) + 1)
      with (2 + Z.of_nat (arrivals_of clientIP reqs)) by lia.
  - rewrite rate_check_same. by rewrite next_bucket_opens.
Qed.

(** C5.  The admission check of the Rate Limiter, for every client key.
    (a) On the key's first request, or once [now > resetTime], the bucket
    becomes [count = 1], [resetTime = now + 60000] and the request is
    admitted.  (b) Otherwise the count is incremented and the window's end
    is kept.  (c) Counting the arrivals of the client since its window was
    opened at [t0] (other clients may arrive in between), an arrival at [t]
    inside the window is admitted when it is at most the 100th; the 100th is
    admitted; the 101st is denied, with [retryAfter] the remaining
    milliseconds until the reset divided by 1000 and rounded up, a value
    between 0 and 60. *)
Theorem rate_limiter_fixed_window
    (tbl : gmap string bucket) (clientIP : string) (t0 : Z)
    (reqs : list (string * Z)) (t : Z) :
  opens_window tbl clientIP t0 ->
  (forall t', (clientIP, t') ∈ reqs -> t0 <= t' <= t0 + RATE_LIMIT_WINDOW) ->
  t0 <= t <= t0 + RATE_LIMIT_WINDOW ->
  let nth := (2 + arrivals_of clientIP reqs)%nat in
  let verdict :=
    fst (rate_check clientIP t (rate_check_all ((clientIP, t0) :: reqs) tbl)) in
  let retryAfter := ceil_seconds (t0 + RATE_LIMIT_WINDOW - t) in
  (* (a) *)
  rate_check clientIP t0 tbl
  = (Allow, <[clientIP := Bucket 1 (t0 + RATE_LIMIT_WINDOW)]> tbl)
  (* (b) *)
  /\ (forall (tbl' : gmap string bucket) b now,
        tbl' !! clientIP = Some b -> ~ now > resetTime b ->
        snd (rate_check clientIP now tbl') !! clientIP
        = Some (Bucket (count b + 1) (resetTime b)))
  (* (c) *)
  /\ ((nth <= 100)%nat -> verdict = Allow)
  /\ (nth = 100%nat -> verdict = Allow)
  /\ (nth = 101%nat -> verdict = Deny retryAfter)
  /\ ((100 < nth)%nat -> verdict = Deny retryAfter)
  /\ 0 <= retryAfter <= 60
  /\ t0 + RATE_LIMIT_WINDOW - t <= 1000 * retryAfter
     < t0 + RATE_LIMIT_WINDOW - t + 1000.
Proof.
  intros Hopen Hreqs Ht nth verdict retryAfter.
  assert (verdict
          = decide_bucket (Bucket (Z.of_nat nth) (t0 + RATE_LIMIT_WINDOW)) t)
    as Hverdict.
  { subst verdict. rewrite verdict_in_window; [| done | | lia].
    - cbn [fst]. do 2 f_equal. subst nth. lia.
    - intros t' Ht'. apply Hreqs in Ht'. lia. }
  assert (forall n, (n <= 100)%nat ->
            decide_bucket (Bucket (Z.of_nat n) (t0 + RATE_LIMIT_WINDOW)) t = Allow)
    as Hallow.
  { intros n Hn. unfold decide_bucket, RATE_LIMIT_MAX_REQUESTS. cbn [count].
    destruct (Z.of_nat n >? 100) eqn:G; [lia | done]. }
  assert (forall n, (100 < n)%nat ->
            decide_bucket (Bucket (Z.of_nat n) (t0 + RATE_LIMIT_WINDOW)) t
            = Deny retryAfter)
    as Hdeny.
  { intros n Hn. unfold decide_bucket, RATE_LIMIT_MAX_REQUESTS. cbn [count resetTime].
    destruct (Z.of_nat n >? 100) eqn:G; [done | lia]. }
  split; [| split; [| repeat split]].
  - unfold rate_check. rewrite next_bucket_opens by done. done.
  - intros tbl' b now Hb Hnow. rewrite rate_check_same, Hb. cbn.
    destruct (now >? resetTime b) eqn:G; [lia | done].
  - intros Hn. rewrite Hverdict. by apply Hallow.
  - intros Hn. rewrite Hverdict. apply Hallow. lia.
  - intros Hn. rewrite Hverdict. apply Hdeny. lia.
  - intros Hn. rewrite Hverdict. by apply Hdeny.
  - apply ceil_seconds_bounds. lia.
  - apply ceil_seconds_bounds. lia.
  - apply ceil_seconds_least.
  - pose proof (ceil_seconds_least (t0 + RATE_LIMIT_WINDOW - t)). subst retryAfter. lia.
Qed.

(** One client, one window: a first arrival at 0, 99 more at 5 ms, and the
    101st at 1500 ms. *)
Lemma rate_limiter_fixed_window_witness :
  let clientIP := "10.0.0.1" in
  let reqs := replicate 99 (clientIP, 5) in
  arrivals_of clientIP reqs = 99%nat
  /\ fst (rate_check clientIP 1500 (rate_check_all ((clientIP, 0) :: reqs) ∅)) = Deny 59.
Proof.
  intros clientIP reqs.
  split; [reflexivity |].
  refine (proj1 (proj2 (proj2 (proj2 (proj2
            (rate_limiter_fixed_window ∅ clientIP 0 reqs 1500 _ _ _))))) _).
  - left. reflexivity.
  - intros t' Hin. apply elem_of_replicate in Hin as [Heq _].
    inversion Heq. unfold RATE_LIMIT_WINDOW. lia.
  - unfold RATE_LIMIT_WINDOW. lia.
  - reflexivity.
Defined.

End RateLimiterFacts.

(* ===================================================================== *)
(** * Facts about the gateway's dispatch *)
(* ===================================================================== *)

Module GatewayFacts.
Import Gateway.

Lemma prefix_cons c s1 s2 :
  String.prefix (String c s1) s2 = true ->
  exists s2', s2 = String c s2' /\ String.prefix s1 s2' = true.
Proof.
  destruct s2 as [|c' s2']; cbn; [done |].
  destruct (Ascii.ascii_dec c c') as [->|]; [eauto | done].
Qed.

(** A path of a proxied family is neither [/health] nor [/metrics]. *)
Lemma proxied_not_probe p :
  proxied p = true ->
  matches_exact "/health" p = false /\ matches_exact "/metrics" p = false.
Proof.
  unfold proxied, matches_star, matches_exact. intros H.
  repeat (apply orb_prop in H as [H | H]);
    repeat (apply prefix_cons in H as (? & -> & H)); done.
Qed.

Lemma health_passes w req now st :
  proxied (path req) = true -> health w req now st = (Next, st).
Proof.
  intros [H _]%proxied_not_probe. unfold health. rewrite H. by destruct (method req).
Qed.

Lemma metrics_passes w req now st :
  proxied (path req) = true -> metrics w req now st = (Next, st).
Proof.
  intros [_ H]%proxied_not_probe. unfold metrics. rewrite H. by destruct (method req).
Qed.

(** What [proxyRequest] leaves behind: one [Forwarded] event, and the
    limiter's table as it was. *)
Lemma proxyRequest_effect w req now target p st :
  exists r,
    proxyRequest w req now target p st
    = (Respond r, State (rateLimit st)
                        (events st ++ [Forwarded target (method req) p])).
Proof.
  unfold proxyRequest, emit.
  destruct (backend w target (method req) p (body req) (authorization req));
    eauto.
Qed.

(** A request on a proxied route is answered by its route handler: the
    layers registered after the routes, the rate limiter among them, never
    see it.  The table is left as it was, whatever it holds for the client,
    and the request is forwarded unless it is an order route whose token is
    refused. *)
Lemma proxied_request_skips_limiter w req now st :
  proxied (path req) = true ->
  let out := gateway w req now st in
  rateLimit (snd out) = rateLimit st
  /\ (exists sent, events (snd out) = events st ++ sent
                   /\ forallb is_forward sent = true)
  /\ ((matches_star "/api/orders" (path req) = true ->
       authenticateToken w req = None) ->
      exists target p,
        events (snd out) = events st ++ [Forwarded target (method req) p]).
Proof.
  intros Hp out. subst out. unfold gateway, app.
  cbn [dispatch library_middleware].
  rewrite health_passes, metrics_passes by done.
  unfold users.
  destruct (matches_star "/api/users" (path req)) eqn:Eu.
  { destruct (proxyRequest_effect w req now UserService
                ("/users" +:+ JsString.replace "/api/users" EmptyString (path req)) st)
      as (r & ->).
    cbn. split; [done |]. split; [by eexists [_] | eauto]. }
  unfold auth.
  destruct (matches_star "/api/auth" (path req)) eqn:Ea.
  { destruct (proxyRequest_effect w req now UserService
                ("/auth" +:+ JsString.replace "/api/auth" EmptyString (path req)) st)
      as (r & ->).
    cbn. split; [done |]. split; [by eexists [_] | eauto]. }
  unfold products.
  destruct (matches_star "/api/products" (path req)) eqn:Epr.
  { destruct (proxyRequest_effect w req now ProductService
                ("/products" +:+ JsString.replace "/api/products" EmptyString (path req)) st)
      as (r & ->).
    cbn. split; [done |]. split; [by eexists [_] | eauto]. }
  unfold orders.
  destruct (matches_star "/api/orders" (path req)) eqn:Eo.
  { destruct (authenticateToken w req) as [refusal|] eqn:Et.
    - cbn. split; [done |]. split.
      + exists []. by rewrite app_nil_r.
      + intros H. by specialize (H eq_refl).
    - destruct (proxyRequest_effect w req now OrderService
                  ("/orders" +:+ JsString.replace "/api/orders" EmptyString (path req)) st)
        as (r & ->).
      cbn. split; [done |]. split; [by eexists [_] | eauto]. }
  exfalso. unfold proxied in Hp. rewrite Eu, Ea, Epr, Eo in Hp. done.
Qed.

(** C1 (the code departs from the specified behaviour).  A client sends 101 requests for
    a path that no route serves; these do reach the limiter, and from the
    101st on it answers 429.  In the same window the client asks for
    [/api/products/1]: the limiter, if asked, denies ([rate_check] gives [Deny]),
    yet the gateway forwards the request to the Product service and relays
    its answer, without consulting or updating the limiter's table. *)
Theorem gateway_forwards_request_limiter_denies (w : world) :
  let client := "10.0.0.1" in
  let probe := Request GET "/nothing" client None EmptyString in
  let req := Request GET "/api/products/1" client None EmptyString in
  let st := repeat_request 101 w probe 0 (State ∅ []) in
  fst (gateway w probe 1000 st) = Response 429 (JTooManyRequests 59)
  /\ fst (rate_check client 1000 (rateLimit st)) = Deny 59
  /\ events (snd (gateway w req 1000 st))
     = events st ++ [Forwarded ProductService GET "/products/1"]
  /\ rateLimit (snd (gateway w req 1000 st)) = rateLimit st
  /\ (forall code data,
        backend w ProductService GET "/products/1" EmptyString None = Replied code data ->
        fst (gateway w req 1000 st) = Response code (JRelayed data)).
Proof.
  intros client probe req st.
  assert (rateLimit st = {[ client := Bucket 101 60000 ]}) as Htbl
    by (vm_compute; reflexivity).
  split; [vm_compute; reflexivity |].
  split; [rewrite Htbl; vm_compute; reflexivity |].
  assert (proxied (path req) = true) as Hp by reflexivity.
  destruct (proxied_request_skips_limiter w req 1000 st Hp) as (Ht & _ & _).
  split; [| split; [exact Ht |]].
  - unfold gateway, app. cbn [dispatch library_middleware].
    rewrite health_passes, metrics_passes by done.
    unfold users, auth, products.
    change (matches_star "/api/users" (path req)) with false.
    change (matches_star "/api/auth" (path req)) with false.
    change (matches_star "/api/products" (path req)) with true.
    cbv iota.
    change ("/products" +:+ JsString.replace "/api/products" EmptyString (path req))
      with "/products/1".
    unfold proxyRequest, emit.
    by destruct (backend w ProductService (method req) "/products/1"
                   (body req) (authorization req)).
  - intros code data Hb.
    unfold gateway, app. cbn [dispatch library_middleware].
    rewrite health_passes, metrics_passes by done.
    unfold users, auth, products.
    change (matches_star "/api/users" (path req)) with false.
    change (matches_star "/api/auth" (path req)) with false.
    change (matches_star "/api/products" (path req)) with true.
    cbv iota.
    change ("/products" +:+ JsString.replace "/api/products" EmptyString (path req))
      with "/products/1".
    unfold proxyRequest, emit.
    change (backend w ProductService (method req) "/products/1"
              (body req) (authorization req))
      with (backend w ProductService GET "/products/1" EmptyString None).
    by rewrite Hb.
Qed.

Lemma gateway_forwards_request_limiter_denies_witness :
  let w := World (fun _ _ _ _ _ => Replied 200 "{}") (fun _ => false) in
  let client := "10.0.0.1" in
  let probe := Request GET "/nothing" client None EmptyString in
  let req := Request GET "/api/products/1" client None EmptyString in
  let st := repeat_request 101 w probe 0 (State ∅ []) in
  fst (gateway w probe 1000 st) = Response 429 (JTooManyRequests 59)
  /\ fst (gateway w req 1000 st) = Response 200 (JRelayed "{}").
Proof.
  intros w client probe req st.
  destruct (gateway_forwards_request_limiter_denies w)
    as (Hdenied & _ & _ & _ & Hrelayed).
  split; [exact Hdenied |].
  exact (Hrelayed 200 "{}" eq_refl).
Defined.

End GatewayFacts.

(* ===================================================================== *)
(** * Facts about the Order Service *)
(* ===================================================================== *)

Module OrderServiceFacts.
Import OrderService.
Section Facts.
Context {N : JsNumber} {S : Schema}.

(** ** The handler monad *)

Lemma bind_run {A B} (m : M A) (f : A -> M B) (s : store) :
  (m ≫= f) s
  = match m s with
    | (Normal a, s') => f a s'
    | (Returned r, s') => (Returned r, s')
    | (Thrown, s') => (Thrown, s')
    end.
Proof. reflexivity. Qed.

(** Runs the straight-line part of a handler. *)
Ltac run_handler :=
  repeat first
    [ rewrite bind_run
    | progress (unfold try_finally, try_catch; cbv beta)
    | progress (unfold logged)
    | progress cbn ].

(** Closes an equation between two stores that differ by the bracketing
    of their journals. *)
Ltac store_eq :=
  cbv [logged journaled client_release pool_connect log];
  cbn [orders order_items orders_id_seq order_items_id_seq transaction journal];
  rewrite <- ?app_assoc; cbn [app]; try done.

Lemma journaled_nil s : journaled [] s = s.
Proof. destruct s. unfold journaled. cbn. by rewrite app_nil_r. Qed.

Lemma journaled_app evs evs' s :
  journaled evs' (journaled evs s) = journaled (evs ++ evs') s.
Proof. unfold journaled. cbn. by rewrite app_assoc. Qed.

Lemma logged_journaled e s : logged e s = journaled [e] s.
Proof. reflexivity. Qed.

(** ** The validation loop *)

Lemma validate_all_found products items :
  forall prods i totalAmount validatedItems s,
    answers products i items = map Some prods ->
    validate products items i totalAmount validatedItems s
    = (Normal (fold_left num_add (zip_with item_total items prods) totalAmount,
               validatedItems ++ zip_with validated_item items prods),
       journaled (lookups items) s).
Proof.
  induction items as [|item rest IH]; intros prods i tot val s Hans.
  - cbn. by rewrite app_nil_r, journaled_nil.
  - destruct prods as [|product prods]; [done |].
    cbn in Hans. injection Hans as Hp Hrest.
    cbn [validate]. rewrite bind_run.
    unfold try_catch, fetch. rewrite !bind_run. cbn [log]. rewrite Hp. cbn.
    rewrite (IH prods) by done.
    rewrite logged_journaled, journaled_app. cbn.
    by rewrite <- app_assoc.
Qed.

Lemma validate_first_missing products before x after :
  forall prods i totalAmount validatedItems s,
    answers products i before = map Some prods ->
    products (i + length before)%nat (Item.productId x) = None ->
    validate products (before ++ x :: after) i totalAmount validatedItems s
    = (Returned (Response 400 (JError ("Invalid product: " +:+ Item.productId x))),
       journaled (lookups (before ++ [x])) s).
Proof.
  induction before as [|item rest IH]; intros prods i tot val s Hans Hx.
  - cbn in Hx. rewrite Nat.add_0_r in Hx.
    cbn [app validate]. rewrite bind_run.
    unfold try_catch, fetch. rewrite !bind_run. cbn [log]. rewrite Hx. cbn.
    done.
  - destruct prods as [|product prods]; [done |].
    cbn in Hans. injection Hans as Hp Hrest.
    cbn [app validate]. rewrite bind_run.
    unfold try_catch, fetch. rewrite !bind_run. cbn [log]. rewrite Hp. cbn.
    rewrite (IH prods); [| done |].
    + by rewrite logged_journaled, journaled_app.
    + rewrite <- Hx. f_equal. cbn. lia.
Qed.

(** Every item list either validates entirely or has a first item whose
    lookup fails. *)
Lemma answers_cases products items :
  forall i,
    (exists prods, answers products i items = map Some prods)
    \/ (exists before x after prods,
          items = before ++ x :: after
          /\ answers products i before = map Some prods
          /\ products (i + length before)%nat (Item.productId x) = None).
Proof.
  induction items as [|item rest IH]; intros i.
  - left. by exists [].
  - destruct (products i (Item.productId item)) as [product|] eqn:Hp.
    + destruct (IH (Datatypes.S i)) as [(prods & Hr) | (before & x & after & prods & -> & Hb & Hx)].
      * left. exists (product :: prods). cbn. by rewrite Hp, Hr.
      * right. exists (item :: before), x, after, (product :: prods).
        split; [done |]. split.
        -- cbn. by rewrite Hp, Hb.
        -- rewrite <- Hx. f_equal. cbn. lia.
    + right. exists [], item, rest, []. cbn. rewrite Nat.add_0_r. done.
Qed.

(** ** The insert loop *)

Lemma insert_items_accepted orderId now vs :
  forall s,
    forallb (accepted orderId) vs = true ->
    insert_items orderId vs now s
    = (Normal tt,
       Store (orders s)
             (order_items s ++ item_rows orderId (order_items_id_seq s) now vs)
             (orders_id_seq s)
             (order_items_id_seq s + Z.of_nat (length vs))
             (transaction s)
             (journal s ++ inserts orderId vs)).
Proof.
  induction vs as [|v rest IH]; intros s Hok.
  - destruct s. cbn. by rewrite !app_nil_r, Z.add_0_r.
  - cbn in Hok. apply andb_prop in Hok as [Hv Hrest].
    cbn [insert_items]. rewrite bind_run.
    unfold insert_order_item. unfold accepted in Hv. rewrite Hv.
    rewrite IH by done. cbn.
    rewrite <- !app_assoc. cbn. do 2 f_equal. lia.
Qed.

Lemma insert_items_refused orderId now ok bad rest :
  forall s,
    forallb (accepted orderId) ok = true ->
    accepted orderId bad = false ->
    insert_items orderId (ok ++ bad :: rest) now s
    = (Thrown,
       Store (orders s)
             (order_items s ++ item_rows orderId (order_items_id_seq s) now ok)
             (orders_id_seq s)
             (order_items_id_seq s + Z.of_nat (length ok))
             (transaction s)
             (journal s ++ inserts orderId ok ++ [Rejected])).
Proof.
  induction ok as [|v ok IH]; intros s Hok Hbad.
  - cbn [app insert_items]. rewrite bind_run.
    unfold insert_order_item. unfold accepted in Hbad. rewrite Hbad.
    destruct s. cbn. by rewrite app_nil_r, Z.add_0_r.
  - cbn in Hok. apply andb_prop in Hok as [Hv Hrest].
    cbn [app insert_items]. rewrite bind_run.
    unfold insert_order_item at 1. unfold accepted in Hv. rewrite Hv.
    rewrite IH by done. cbn.
    rewrite <- !app_assoc. cbn. do 2 f_equal. lia.
Qed.

(** Either every validated item is accepted, or there is a first one that
    the store refuses. *)
Lemma accepted_cases orderId vs :
  forallb (accepted orderId) vs = true
  \/ (exists ok bad rest,
        vs = ok ++ bad :: rest
        /\ forallb (accepted orderId) ok = true
        /\ accepted orderId bad = false).
Proof.
  induction vs as [|v vs IH]; [by left |].
  destruct (accepted orderId v) eqn:Hv.
  - destruct IH as [Hall | (ok & bad & rest & -> & Hok & Hbad)].
    + left. cbn. by rewrite Hv.
    + right. exists (v :: ok), bad, rest. cbn. by rewrite Hv.
  - right. by exists [], v, vs.
Qed.

(** ** POST /orders, path by path *)

(** No items: the request is refused after [BEGIN]. *)
Lemma createOrder_no_items products userId items shippingAddress now s :
  items = None \/ items = Some [] ->
  createOrder products userId items shippingAddress now s
  = (Returned (Response 400 (JError "Order items are required")),
     Store (orders s) (order_items s) (orders_id_seq s) (order_items_id_seq s)
           (Some (rows_at_begin s))
           (journal s ++ [Connect; Begin; Release])).
Proof.
  intros [-> | ->]; unfold createOrder, rows_at_begin;
    destruct s as [os its so si [snapshot|] j];
    run_handler; store_eq.
Qed.

(** A first item whose lookup fails: 400 naming it, after the lookups of
    the items before it and its own, and no statement on the store. *)
Lemma createOrder_missing_product products userId before x after prods
    shippingAddress now s :
  answers products 0 before = map Some prods ->
  products (length before) (Item.productId x) = None ->
  createOrder products userId (Some (before ++ x :: after)) shippingAddress now s
  = (Returned (Response 400 (JError ("Invalid product: " +:+ Item.productId x))),
     Store (orders s) (order_items s) (orders_id_seq s) (order_items_id_seq s)
           (Some (rows_at_begin s))
           (journal s ++ [Connect; Begin] ++ lookups (before ++ [x]) ++ [Release])).
Proof.
  intros Hans Hx. unfold createOrder.
  rewrite bind_run. cbn [pool_connect log].
  unfold try_finally, try_catch. rewrite bind_run. cbn [BEGIN].
  assert (exists it its, before ++ x :: after = it :: its) as (it & its & Heq)
    by (destruct before; cbn; eauto).
  rewrite Heq. rewrite bind_run. rewrite <- Heq.
  rewrite (validate_first_missing products before x after prods) by done.
  unfold rows_at_begin.
  destruct s as [os its' so si [snapshot|] j]; store_eq.
Qed.

Lemma getOrderById_tables orderId userId s1 s2 :
  orders s1 = orders s2 -> order_items s1 = order_items s2 ->
  getOrderById orderId userId s1 = getOrderById orderId userId s2.
Proof.
  intros Ho Hi. unfold getOrderById, items_of. by rewrite Ho, Hi.
Qed.

(** Common prefix of the paths on which every item validates. *)
Lemma createOrder_validated products userId its prods shippingAddress now s :
  its <> [] ->
  answers products 0 its = map Some prods ->
  createOrder products userId (Some its) shippingAddress now s
  = try_finally
      (try_catch
         (order ← insert_order userId (order_total its prods) shippingAddress now;
          insert_items (Order.id order) (zip_with validated_item its prods) now;;
          COMMIT;;
          completeOrder ← gets (getOrderById (Order.id order) None);
          respond 201 (JCreated "Order created successfully" completeOrder))
         (ROLLBACK;;
          respond 500 (JError "Internal server error")))
      client_release
      (Store (orders s) (order_items s) (orders_id_seq s) (order_items_id_seq s)
             (Some (rows_at_begin s))
             (journal s ++ [Connect; Begin] ++ lookups its)).
Proof.
  intros Hne Hans. unfold createOrder.
  destruct its as [|it rest]; [done |].
  remember (it :: rest) as its eqn:Hits.
  rewrite bind_run. cbn [pool_connect log].
  unfold try_finally, try_catch. rewrite !bind_run. cbn [BEGIN].
  rewrite (bind_run (validate products its 0%nat num_zero [])).
  rewrite (validate_all_found products its prods) by done.
  cbn [fst snd app]. unfold order_total, sum_in_order.
  replace (journaled (lookups its) (logged Begin _))
    with (Store (orders s) (order_items s) (orders_id_seq s)
                (order_items_id_seq s) (Some (rows_at_begin s))
                (journal s ++ [Connect; Begin] ++ lookups its)); [done |].
  unfold rows_at_begin.
  destruct s as [os its' so si [snapshot|] j]; store_eq.
Qed.

(** Every item validates and the store takes every row: 201. *)
Lemma createOrder_created products userId its prods shippingAddress now s :
  let total := order_total its prods in
  let vs := zip_with validated_item its prods in
  let row := new_order s userId total shippingAddress now in
  let s' :=
    Store (orders s ++ [row])
          (order_items s ++ item_rows (Order.id row) (order_items_id_seq s) now vs)
          (orders_id_seq s + 1)
          (order_items_id_seq s + Z.of_nat (length vs))
          None
          (journal s ++ [Connect; Begin] ++ lookups its
             ++ [InsertOrder (Order.id row)] ++ inserts (Order.id row) vs
             ++ [Commit; Release]) in
  its <> [] ->
  answers products 0 its = map Some prods ->
  orders_accepts userId total shippingAddress = true ->
  forallb (accepted (Order.id row)) vs = true ->
  createOrder products userId (Some its) shippingAddress now s
  = (Returned (Response 201
       (JCreated "Order created successfully"
                 (getOrderById (Order.id row) None s'))),
     s').
Proof.
  intros total vs row s' Hne Hans Horder Hitems.
  rewrite (createOrder_validated products userId its prods) by done.
  unfold try_finally, try_catch. rewrite bind_run.
  unfold insert_order. fold total. rewrite Horder.
  cbn [orders order_items orders_id_seq order_items_id_seq transaction journal].
  fold (new_order s userId total shippingAddress now). fold row.
  rewrite bind_run. fold vs. rewrite insert_items_accepted by done.
  unfold COMMIT, gets, respond, client_release, log.
  cbv [mbind M_bind logged].
  cbn [orders order_items orders_id_seq order_items_id_seq transaction journal].
  match goal with
  | |- (Returned (Response _ (JCreated _ (getOrderById _ _ ?a))), _) = _ =>
      rewrite (getOrderById_tables (Order.id row) None a s') by done
  end.
  subst s'. store_eq.
Qed.

(** Every item validates and the store refuses the order row: 500 after
    [ROLLBACK]. *)
Lemma createOrder_order_refused products userId its prods shippingAddress now s :
  its <> [] ->
  answers products 0 its = map Some prods ->
  orders_accepts userId (order_total its prods) shippingAddress = false ->
  createOrder products userId (Some its) shippingAddress now s
  = (Returned (Response 500 (JError "Internal server error")),
     Store (rows_at_begin s).1 (rows_at_begin s).2
           (orders_id_seq s) (order_items_id_seq s) None
           (journal s ++ [Connect; Begin] ++ lookups its
              ++ [Rejected; Rollback; Release])).
Proof.
  intros Hne Hans Horder.
  rewrite (createOrder_validated products userId its prods) by done.
  unfold try_finally, try_catch. rewrite bind_run.
  unfold insert_order. rewrite Horder.
  rewrite bind_run. unfold ROLLBACK, respond.
  destruct (rows_at_begin s) as [os' its']. store_eq.
Qed.

(** Every item validates, the order row is inserted and the store refuses
    an item row: 500 after [ROLLBACK]. *)
Lemma createOrder_item_refused products userId its prods shippingAddress now s
    ok bad rest :
  let total := order_total its prods in
  let row := new_order s userId total shippingAddress now in
  its <> [] ->
  answers products 0 its = map Some prods ->
  orders_accepts userId total shippingAddress = true ->
  zip_with validated_item its prods = ok ++ bad :: rest ->
  forallb (accepted (Order.id row)) ok = true ->
  accepted (Order.id row) bad = false ->
  createOrder products userId (Some its) shippingAddress now s
  = (Returned (Response 500 (JError "Internal server error")),
     Store (rows_at_begin s).1 (rows_at_begin s).2
           (orders_id_seq s + 1)
           (order_items_id_seq s + Z.of_nat (length ok)) None
           (journal s ++ [Connect; Begin] ++ lookups its
              ++ [InsertOrder (Order.id row)] ++ inserts (Order.id row) ok
              ++ [Rejected; Rollback; Release])).
Proof.
  intros total row Hne Hans Horder Hvs Hok Hbad.
  rewrite (createOrder_validated products userId its prods) by done.
  unfold try_finally, try_catch. rewrite bind_run.
  unfold insert_order. fold total. rewrite Horder.
  cbn [orders order_items orders_id_seq order_items_id_seq transaction journal].
  fold (new_order s userId total shippingAddress now). fold row.
  rewrite bind_run. rewrite Hvs. rewrite insert_items_refused by done.
  rewrite bind_run. unfold ROLLBACK, respond.
  destruct (rows_at_begin s) as [os' its']. store_eq.
Qed.

(** ** What a 201 tells *)

Lemma answers_length products its :
  forall i prods,
    answers products i its = map Some prods -> length prods = length its.
Proof.
  intros i prods H. apply (f_equal length) in H.
  rewrite length_map in H. rewrite <- H. clear H.
  revert i. induction its as [|it its IH]; intros i; cbn; [done |].
  by rewrite (IH (Datatypes.S i)).
Qed.

(** A creation answers 201 only on the path where every lookup succeeds
    and the store takes the order row and every item row. *)
Lemma createOrder_201_inv products userId items shippingAddress now s r :
  fst (createOrder products userId items shippingAddress now s) = Returned r ->
  code r = 201 ->
  exists its prods,
    items = Some its /\ its <> []
    /\ answers products 0 its = map Some prods
    /\ orders_accepts userId (order_total its prods) shippingAddress = true
    /\ forallb (accepted (orders_id_seq s)) (zip_with validated_item its prods)
       = true.
Proof.
  intros Hout Hcode.
  destruct items as [[|it rest]|].
  - rewrite createOrder_no_items in Hout by auto.
    cbn in Hout. injection Hout as <-. done.
  - remember (it :: rest) as its eqn:Hits.
    assert (its <> []) as Hne by (by subst its).
    destruct (answers_cases products its 0)
      as [(prods & Hans) | (before & x & after & prods & -> & Hb & Hx)].
    + destruct (orders_accepts userId (order_total its prods) shippingAddress)
        eqn:Horder.
      * destruct (accepted_cases (orders_id_seq s)
                    (zip_with validated_item its prods))
          as [Hall | (ok & bad & more & Hvs & Hok & Hbad)].
        -- exists its, prods. done.
        -- rewrite (createOrder_item_refused products userId its prods
                      shippingAddress now s ok bad more) in Hout by done.
           cbn in Hout. injection Hout as <-. done.
      * rewrite (createOrder_order_refused products userId its prods) in Hout
          by done.
        cbn in Hout. injection Hout as <-. done.
    + rewrite (createOrder_missing_product products userId before x after prods)
        in Hout by done.
      cbn in Hout. injection Hout as <-. done.
  - rewrite createOrder_no_items in Hout by auto.
    cbn in Hout. injection Hout as <-. done.
Qed.

(** ** The rows of a created order *)

Lemma item_rows_quantity orderId now vs :
  forall seq,
    map OrderItem.quantity (item_rows orderId seq now vs)
    = map Validated.quantity vs.
Proof. induction vs as [|v vs IH]; intros seq; cbn; [done | by rewrite IH]. Qed.



Lemma item_rows_order_id orderId now vs :
  forall seq,
    Forall (fun row => OrderItem.order_id row = orderId)
           (item_rows orderId seq now vs).
Proof.
  induction vs as [|v vs IH]; intros seq; cbn; constructor; [done | apply IH].
Qed.

Lemma item_rows_accepted orderId now vs :
  forall seq,
    forallb (accepted orderId) vs = true ->
    Forall (fun row => row_accepted row = true)
           (item_rows orderId seq now vs).
Proof.
  induction vs as [|v vs IH]; intros seq Hok; cbn; [constructor |].
  cbn in Hok. apply andb_prop in Hok as [Hv Hvs].
  constructor; [exact Hv | by apply IH].
Qed.


Lemma validated_quantity its :
  forall prods,
    length prods = length its ->
    map Validated.quantity (zip_with validated_item its prods)
    = map Item.quantity its.
Proof.
  induction its as [|it its IH]; intros [|p prods] Hlen; cbn in *; try done.
  by rewrite IH by lia.
Qed.




(** ** The other handlers, as functions of the store *)





Lemma getOrder_run userId orderId s :
  getOrder userId orderId s
  = match getOrderById orderId (Some userId) s with
    | None => (Returned (Response 404 (JError "Order not found")), s)
    | Some o => (Returned (Response 200 (JOrder o)), s)
    end.
Proof.
  unfold getOrder, try_catch. rewrite bind_run. unfold gets.
  by destruct (getOrderById orderId (Some userId) s).
Qed.


Lemma listOrders_run userId page limit status s :
  let page' := default 1 page in
  let limit' := default 10 limit in
  let offset := (page' - 1) * limit' in
  let rows :=
    take (Z.to_nat limit')
      (drop (Z.to_nat offset)
         (merge_sort newest_first
            (List.filter
               (fun o => (Order.user_id o =? userId) && status_clause status o)%bool
               (orders s)))) in
  listOrders userId page limit status s
  = if ((limit' <? 0) || (offset <? 0))%bool
    then (Returned (Response 500 (JError "Internal server error")), s)
    else (Returned (Response 200
            (JOrders (map (fun order => View order (items_of (Order.id order) s)) rows)
                     page' limit' (Z.of_nat (length rows)))), s).
Proof.
  intros page' limit' offset rows.
  unfold listOrders, try_catch. rewrite bind_run. unfold select_page.
  fold page' limit'. fold offset.
  destruct ((limit' <? 0) || (offset <? 0))%bool; [done |].
  fold rows. rewrite bind_run. done.
Qed.

Lemma lookups_inner its : forallb is_inner (lookups its) = true.
Proof. by induction its. Qed.

Lemma inserts_write orderId vs : forallb is_write (inserts orderId vs) = true.
Proof. by induction vs. Qed.

Lemma write_inner evs : forallb is_write evs = true -> forallb is_inner evs = true.
Proof.
  induction evs as [|e evs IH]; cbn; [done |].
  intros [He Hevs]%andb_prop. rewrite IH by done. by destruct e.
Qed.

(** ** Statements on order creation *)

(** C2.  In createOrder, for a non-empty item list whose first failing
    lookup is that of item [x] (the items [before] it all validate), the
    lookups are made one after the other in input order and stop at [x];
    the operation answers 400 with a message naming [x]'s product id; no
    statement is issued on the store, so no Order row and no OrderItem row
    exists for the request. *)
Theorem createOrder_first_invalid_product
    products userId before x after prods shippingAddress now s :
  answers products 0 before = map Some prods ->
  products (length before) (Item.productId x) = None ->
  let out :=
    createOrder products userId (Some (before ++ x :: after))
                shippingAddress now s in
  fst out
  = Returned (Response 400 (JError ("Invalid product: " +:+ Item.productId x)))
  /\ journal (snd out)
     = journal s ++ [Connect; Begin] ++ lookups before
         ++ [Lookup (Item.productId x); Release]
  /\ orders (snd out) = orders s
  /\ order_items (snd out) = order_items s.
Proof.
  intros Hans Hx out. subst out.
  rewrite (createOrder_missing_product products userId before x after prods)
    by done.
  cbn. repeat split. unfold lookups. rewrite map_app. cbn.
  by rewrite <- !app_assoc.
Qed.


(** C9, amended.  Every OrderItem row that createOrder persists carries
    the quantity of the request's item at the same position, unchanged, and
    is a row the store's columns took; createOrder itself checks nothing
    about the quantity. *)
Theorem created_items_keep_requested_quantity
    products userId items shippingAddress now s r :
  let out := createOrder products userId items shippingAddress now s in
  fst out = Returned r -> code r = 201 ->
  exists its rows,
    items = Some its
    /\ order_items (snd out) = order_items s ++ rows
    /\ map OrderItem.quantity rows = map Item.quantity its
    /\ Forall (fun row => row_accepted row = true) rows.
Proof.
  intros out Hout Hcode.
  destruct (createOrder_201_inv _ _ _ _ _ _ _ Hout Hcode)
    as (its & prods & -> & Hne & Hans & Horder & Hitems).
  pose proof (answers_length _ _ _ _ Hans) as Hlen.
  subst out.
  rewrite (createOrder_created products userId its prods) by done.
  cbn [snd order_items].
  eexists its, _. split; [done |]. split; [done |].
  split; [by rewrite item_rows_quantity, validated_quantity |].
  by apply item_rows_accepted.
Qed.

(** C4, amended.  createOrder issues [BEGIN] on the connection it acquired
    before it validates any item, and releases the connection as its last
    action on every exit path.  When every item validates, exactly one of
    [COMMIT] and [ROLLBACK] closes the transaction, after the inserts and
    before the release: [COMMIT] exactly when the order is created (201),
    [ROLLBACK] when the store refuses a row; no transaction is open when the
    connection is released. *)
Theorem createOrder_transaction_discipline
    products userId items shippingAddress now s :
  let out := createOrder products userId items shippingAddress now s in
  (exists work,
     journal (snd out) = journal s ++ [Connect; Begin] ++ work ++ [Release]
     /\ forallb is_inner work = true)
  /\ (forall its prods,
        items = Some its -> its <> [] ->
        answers products 0 its = map Some prods ->
        exists writes closing,
          journal (snd out)
          = journal s ++ [Connect; Begin] ++ lookups its ++ writes
              ++ [closing; Release]
          /\ forallb is_write writes = true
          /\ (closing = Commit \/ closing = Rollback)
          /\ (closing = Commit <-> exists r, fst out = Returned r /\ code r = 201)
          /\ transaction (snd out) = None).
Proof.
  intros out.
  assert (forall its prods,
            items = Some its -> its <> [] ->
            answers products 0 its = map Some prods ->
            exists writes closing,
              journal (snd out)
              = journal s ++ [Connect; Begin] ++ lookups its ++ writes
                  ++ [closing; Release]
              /\ forallb is_write writes = true
              /\ (closing = Commit \/ closing = Rollback)
              /\ (closing = Commit <-> exists r, fst out = Returned r /\ code r = 201)
              /\ transaction (snd out) = None) as Hvalidated.
  { intros its prods -> Hne Hans. subst out.
    destruct (orders_accepts userId (order_total its prods) shippingAddress)
      eqn:Horder.
    - destruct (accepted_cases (orders_id_seq s)
                  (zip_with validated_item its prods))
        as [Hall | (ok & bad & more & Hvs & Hok & Hbad)].
      + rewrite (createOrder_created products userId its prods) by done.
        cbn [fst snd journal transaction].
        exists ([InsertOrder (orders_id_seq s)]
                ++ inserts (orders_id_seq s) (zip_with validated_item its prods)),
               Commit.
        split; [cbn; rewrite <- ?app_assoc; done |].
        split; [cbn; apply inserts_write |].
        split; [by left |]. split; [| done].
        split; [intros _; by eexists | done].
      + rewrite (createOrder_item_refused products userId its prods
                   shippingAddress now s ok bad more) by done.
        cbn [fst snd journal transaction].
        exists ([InsertOrder (orders_id_seq s)] ++ inserts (orders_id_seq s) ok
                ++ [Rejected]),
               Rollback.
        split; [cbn; rewrite <- ?app_assoc; done |].
        split; [cbn; rewrite forallb_app, inserts_write; done |].
        split; [by right |]. split; [| done].
        split; [done |]. intros (r & [= <-] & Hr). done.
    - rewrite (createOrder_order_refused products userId its prods) by done.
      cbn [fst snd journal transaction].
      exists [Rejected], Rollback.
      split; [done |]. split; [done |].
      split; [by right |]. split; [| done].
      split; [done |]. intros (r & [= <-] & Hr). done. }
  split; [| exact Hvalidated].
  destruct items as [[|it rest]|].
  - subst out. rewrite createOrder_no_items by auto. by exists [].
  - remember (it :: rest) as its eqn:Hits.
    assert (its <> []) as Hne by (by subst its).
    destruct (answers_cases products its 0)
      as [(prods & Hans) | (before & x & after & prods & Heq & Hb & Hx)].
    + destruct (Hvalidated its prods eq_refl Hne Hans)
        as (writes & closing & Hj & Hw & Hc & _ & _).
      exists (lookups its ++ writes ++ [closing]).
      split; [rewrite Hj; by rewrite <- !app_assoc |].
      rewrite !forallb_app, lookups_inner, (write_inner writes) by done.
      by destruct Hc as [-> | ->].
    + subst out. rewrite Heq.
      rewrite (createOrder_missing_product products userId before x after prods)
        by done.
      exists (lookups (before ++ [x])). split; [done | apply lookups_inner].
  - subst out. rewrite createOrder_no_items by auto. by exists [].
Qed.

(** ** Statements on reading, updating and cancelling *)

Lemma filter_nil {A} (f : A -> bool) (l : list A) :
  List.filter f l = [] <-> forall x, x ∈ l -> f x = false.
Proof.
  induction l as [|a l IH]; cbn.
  - split; [intros _ x Hx; inversion Hx | done].
  - destruct (f a) eqn:Ha.
    + split; [done |]. intros H. specialize (H a ltac:(left)). congruence.
    + rewrite IH. split.
      * intros H x Hx. inversion Hx; subst; auto.
      * intros H x Hx. apply H. by right.
Qed.







(** With a caller id that is not falsy the helper looks the order up by
    key and owner together. *)
Lemma getOrderById_owner userId orderId s :
  userId <> 0 ->
  getOrderById orderId (Some userId) s
  = match List.filter
            (fun o => (Order.id o =? orderId) && (Order.user_id o =? userId))%bool
            (orders s) with
    | [] => None
    | o :: _ => Some (View o (items_of orderId s))
    end.
Proof.
  intros Hu. unfold getOrderById, owner_clause, truthy.
  destruct (userId =? 0) eqn:E; [apply Z.eqb_eq in E; done |]. done.
Qed.




(** C10.  For every listOrders call that answers 200, [total] is the
    number of orders in the page returned, which the limit bounds; the call
    answers 200 whenever limit and offset are not negative.  It is not the
    number of the caller's orders: with three orders and a limit of 2 the
    first page reports a total of 2. *)
Theorem listOrders_total_is_page_length :
  (forall userId page limit status s,
     let out := listOrders userId page limit status s in
     (forall os p l total,
        fst out = Returned (Response 200 (JOrders os p l total)) ->
        total = Z.of_nat (length os) /\ l = default 10 limit /\ total <= l)
     /\ (0 <= default 10 limit ->
         0 <= (default 1 page - 1) * default 10 limit ->
         exists os,
           fst out
           = Returned (Response 200
               (JOrders os (default 1 page) (default 10 limit)
                        (Z.of_nat (length os))))))
  /\ (let s := Store [sample_order 1 10; sample_order 2 20; sample_order 3 30]
                     [] 4 1 None [] in
      length (orders_of 7 s) = 3%nat
      /\ fst (listOrders 7 None (Some 2) None s)
         = Returned (Response 200
             (JOrders [View (sample_order 3 30) []; View (sample_order 2 20) []]
                      1 2 2))).
Proof.
  split.
  - intros userId page limit status s out. subst out.
    rewrite listOrders_run.
    set (rows := take _ _).
    destruct (_ || _)%bool eqn:Hneg.
    + apply orb_true_iff in Hneg. split; [done |].
      intros Hl Ho. destruct Hneg as [H | H]; apply Z.ltb_lt in H; lia.
    + apply orb_false_iff in Hneg as [Hl Ho]. apply Z.ltb_ge in Hl.
      cbn [fst]. split.
      * intros os p l total [= <- <- <- <-].
        rewrite length_map. split; [done |]. split; [done |].
        subst rows. rewrite length_take. lia.
      * intros _ _. eexists. by rewrite length_map.
  - split; [reflexivity |]. vm_compute. reflexivity.
Qed.

End Facts.
End OrderServiceFacts.

(* ===================================================================== *)
(** * Closed instances *)
(* ===================================================================== *)

Module OrderServiceExamples.
Import OrderService OrderServiceFacts Concrete.

(** The example of the specification: one line, two units of [p1] at 50. *)
Example createOrder_example :
  create lenient [item "p1" 2]
  = (Returned (Response 201
       (JCreated "Order created successfully"
          (Some (View (order_row 1 7 "pending" 100 (Some "{}") 1000 1000)
                      [line_row 1 1 "p1" "Lamp" 2 50 1000])))),
     Store [order_row 1 7 "pending" 100 (Some "{}") 1000 1000]
           [line_row 1 1 "p1" "Lamp" 2 50 1000]
           2 2 None
           [Connect; Begin; Lookup "p1"; InsertOrder 1; InsertItem 1 "p1";
            Commit; Release]).
Proof. reflexivity. Qed.

(** A refused item row: the order row inserted before it is rolled back. *)
Example createOrder_rollback_example :
  create (refusing "p2") [item "p1" 2; item "p2" 1]
  = (Returned (Response 500 (JError "Internal server error")),
     Store [] [] 2 2 None
           [Connect; Begin; Lookup "p1"; Lookup "p2"; InsertOrder 1;
            InsertItem 1 "p1"; Rejected; Rollback; Release]).
Proof. reflexivity. Qed.

(** The two early exits give the connection back with the transaction
    still open. *)
Example createOrder_early_exit_example :
  snd (createOrder (N := integral) (S := lenient) shop 7 (Some []) None 1000
         (initial (N := integral)))
  = Store [] [] 1 1 (Some ([], [])) [Connect; Begin; Release]
  /\ snd (create lenient [item "zz" 1])
     = Store [] [] 1 1 (Some ([], [])) [Connect; Begin; Lookup "zz"; Release].
Proof. split; reflexivity. Qed.

Lemma createOrder_first_invalid_product_witness :
  let out := create lenient [item "p1" 2; item "zz" 1; item "p2" 1] in
  fst out = Returned (Response 400 (JError "Invalid product: zz"))
  /\ journal (snd out) = [Connect; Begin; Lookup "p1"; Lookup "zz"; Release]
  /\ orders (snd out) = []
  /\ order_items (snd out) = [].
Proof.
  exact (createOrder_first_invalid_product (N := integral) (S := lenient)
           shop 7 [item "p1" 2] (item "zz" 1) [item "p2" 1]
           [product "Lamp" 50] (Some "{}") 1000
           (initial (N := integral)) eq_refl eq_refl).
Defined.


(** C4, as the specification words it, fails on the code: on a request
    whose single item validates and whose order is created, [BEGIN] is
    issued before the item's lookup. *)
Lemma createOrder_begins_before_validation :
  let j := journal (snd (create lenient [item "p1" 2])) in
  j = [Connect; Begin; Lookup "p1"; InsertOrder 1; InsertItem 1 "p1";
       Commit; Release]
  /\ ~ (opened_after_validation j /\ closed_once_before_release j).
Proof.
  split; [reflexivity |].
  intros [Hopened _].
  apply (Hopened [Connect]
           [Lookup "p1"; InsertOrder 1; InsertItem 1 "p1"; Commit; Release]
           eq_refl "p1").
  left.
Qed.

Lemma createOrder_transaction_discipline_witness :
  let out := create lenient [item "p1" 2] in
  exists writes closing,
    journal (snd out)
    = [] ++ [Connect; Begin] ++ lookups [item "p1" 2] ++ writes
        ++ [closing; Release]
    /\ forallb is_write writes = true
    /\ (closing = Commit \/ closing = Rollback)
    /\ (closing = Commit <-> exists r, fst out = Returned r /\ code r = 201)
    /\ transaction (snd out) = None.
Proof.
  refine (proj2 (createOrder_transaction_discipline (N := integral) (S := lenient)
                   shop 7 (Some [item "p1" 2]) (Some "{}") 1000
                   (initial (N := integral)))
                [item "p1" 2] [product "Lamp" 50] eq_refl _ eq_refl).
  discriminate.
Defined.

(** C9, as the specification words it, fails on the code: a request for
    zero units of [p1] and minus three units of [p2] is answered 201 and its
    two OrderItem rows carry the quantities 0 and -3. *)
Lemma createOrder_persists_nonpositive_quantities :
  let out := create lenient [item "p1" 0; item "p2" (-3)] in
  (exists body, fst out = Returned (Response 201 body))
  /\ map OrderItem.quantity (order_items (snd out)) = [0; -3]
  /\ ~ Forall (fun row : @OrderItem.t integral => 0 < OrderItem.quantity row)
              (order_items (snd out)).
Proof.
  split; [by eexists |]. split; [reflexivity |].
  intros H. apply Forall_cons in H as [H _]. cbn in H. lia.
Qed.

Lemma created_items_keep_requested_quantity_witness :
  let out := create lenient [item "p1" 0; item "p2" (-3)] in
  exists its rows,
    Some [item "p1" 0; item "p2" (-3)] = Some its
    /\ order_items (snd out) = [] ++ rows
    /\ map OrderItem.quantity rows = map Item.quantity its
    /\ Forall (fun row => row_accepted (S := lenient) row = true) rows.
Proof.
  exact (created_items_keep_requested_quantity (N := integral) (S := lenient)
           shop 7 (Some [item "p1" 0; item "p2" (-3)]) (Some "{}") 1000
           (initial (N := integral)) _ eq_refl eq_refl).
Defined.

(** ** Reading, updating, cancelling *)

(** Caller 8 gets the same answer for order 1, which is caller 7's, and
    for order 99, which does not exist. *)
Example getOrder_example :
  fst (getOrder (N := integral) 7 1 ledger)
  = Returned (Response 200
      (JOrder (View (order_row 1 7 "delivered" 100 None 10 10)
                    [line_row 1 1 "p1" "Lamp" 2 50 10])))
  /\ fst (getOrder (N := integral) 8 1 ledger)
     = Returned (Response 404 (JError "Order not found"))
  /\ fst (getOrder (N := integral) 8 99 ledger)
     = Returned (Response 404 (JError "Order not found")).
Proof. repeat split. Qed.


(** A delivered order goes back to pending when its owner asks so. *)
Example updateStatus_example :
  updateStatus (N := integral) 7 1 "pending" 2000 ledger
  = (Returned (Response 200
       (JUpdated "Order status updated successfully"
          (Some (View (order_row 1 7 "pending" 100 None 10 2000)
                      [line_row 1 1 "p1" "Lamp" 2 50 10])))),
     Store [order_row 1 7 "pending" 100 None 10 2000;
            order_row 2 8 "pending" 21 None 20 20;
            order_row 3 7 "confirmed" 7 None 30 30]
           (order_items ledger) 4 4 None [])
  /\ fst (updateStatus (N := integral) 7 1 "refunded" 2000 ledger)
     = Returned (Response 400 (JError "Invalid status"))
  /\ fst (updateStatus (N := integral) 8 1 "pending" 2000 ledger)
     = Returned (Response 404 (JError "Order not found")).
Proof. repeat split. Qed.


(** Order 3 (confirmed) is cancelled by its owner; order 1 (delivered) is
    not, and the answer is that for an unknown id. *)
Example cancelOrder_example :
  cancelOrder (N := integral) 7 3 2000 ledger
  = (Returned (Response 200 (JMessage "Order cancelled successfully")),
     Store [order_row 1 7 "delivered" 100 None 10 10;
            order_row 2 8 "pending" 21 None 20 20;
            order_row 3 7 "cancelled" 7 None 30 2000]
           (order_items ledger) 4 4 None [])
  /\ cancelOrder (N := integral) 7 1 2000 ledger
     = (Returned (Response 404
          (JError "Order not found or cannot be cancelled")), ledger)
  /\ cancelOrder (N := integral) 7 99 2000 ledger
     = (Returned (Response 404
          (JError "Order not found or cannot be cancelled")), ledger)
  /\ cancelOrder (N := integral) 7 2 2000 ledger
     = (Returned (Response 404
          (JError "Order not found or cannot be cancelled")), ledger).
Proof. repeat split. Qed.


Lemma listOrders_total_is_page_length_witness :
  let out := listOrders (N := integral) 7 None (Some 1) None ledger in
  length (orders_of 7 ledger) = 2%nat
  /\ exists os,
       fst out = Returned (Response 200 (JOrders os 1 1 (Z.of_nat (length os)))).
Proof.
  intros out. split; [reflexivity |].
  refine (proj2 (proj1 (listOrders_total_is_page_length (N := integral))
                   7 None (Some 1) None ledger) _ _); cbn; lia.
Defined.

End OrderServiceExamples.

(* ===================================================================== *)
(** * Further facts about the gateway *)
(* ===================================================================== *)

Module GatewayExtras.
Import Gateway GatewayNotions.

(** ** Strings *)

Lemma append_cons c s t : String c s +:+ t = String c (s +:+ t).
Proof. reflexivity. Qed.

Lemma append_nil_l s : EmptyString +:+ s = s.
Proof. reflexivity. Qed.

Lemma append_nil_r s : s +:+ EmptyString = s.
Proof.
  induction s as [|c s IH]; [done |]. by rewrite append_cons, IH.
Qed.

Lemma append_assoc s1 s2 s3 : (s1 +:+ s2) +:+ s3 = s1 +:+ s2 +:+ s3.
Proof.
  induction s1 as [|c s1 IH]; [done |]. by rewrite !append_cons, IH.
Qed.

Lemma prefix_append s1 s2 : String.prefix s1 (s1 +:+ s2) = true.
Proof.
  induction s1 as [|c s1 IH]; [by destruct s2 |].
  rewrite append_cons. cbn. by destruct (Ascii.ascii_dec c c).
Qed.

Lemma index_prefix pat s : String.index 0 pat (pat +:+ s) = Some 0%nat.
Proof.
  pose proof (prefix_append pat s) as Hp.
  destruct (pat +:+ s) as [|c rest].
  - by destruct pat.
  - cbn [String.index]. by rewrite Hp.
Qed.

Lemma substring_all s : String.substring 0 (String.length s) s = s.
Proof. induction s as [|c s IH]; cbn; [done | by rewrite IH]. Qed.

Lemma substring_skip pat s n :
  String.substring (String.length pat) n (pat +:+ s) = String.substring 0 n s.
Proof.
  induction pat as [|c pat IH]; [done |]. rewrite append_cons. cbn. exact IH.
Qed.

Lemma length_append s1 s2 :
  String.length (s1 +:+ s2) = (String.length s1 + String.length s2)%nat.
Proof.
  induction s1 as [|c s1 IH]; [done |]. rewrite append_cons. cbn. by rewrite IH.
Qed.

(** Removing a pattern that starts the string leaves what follows it. *)
Lemma replace_prefix pat s : JsString.replace pat EmptyString (pat +:+ s) = s.
Proof.
  unfold JsString.replace. rewrite index_prefix.
  cbn [Nat.add]. rewrite length_append.
  replace (String.length pat + String.length s - String.length pat)%nat
    with (String.length s) by lia.
  rewrite substring_skip, substring_all.
  rewrite append_nil_l.
  by destruct (pat +:+ s).
Qed.

Lemma split_space_aux_word cur a s :
  spaceless a = true ->
  JsString.split_space_aux cur (a +:+ s) = JsString.split_space_aux (cur +:+ a) s.
Proof.
  revert cur. induction a as [|c a IH]; intros cur Ha.
  - by rewrite append_nil_l, append_nil_r.
  - cbn in Ha. apply andb_prop in Ha as [Hc Ha].
    rewrite append_cons. cbn [JsString.split_space_aux].
    destruct (Ascii.eqb c " ") eqn:E; [done |].
    rewrite IH by done. by rewrite append_assoc.
Qed.

Lemma split_space_word a : spaceless a = true -> JsString.split_space a = [a].
Proof.
  intros Ha. unfold JsString.split_space.
  rewrite <- (append_nil_r a) at 1.
  by rewrite split_space_aux_word.
Qed.

(** The second word of a header whose first two words are [a] and [b]. *)
Lemma split_space_second a b tail :
  spaceless a = true -> spaceless b = true ->
  tail = EmptyString \/ (exists t, tail = String " " t) ->
  JsString.split_space (a +:+ " " +:+ b +:+ tail) !! 1%nat = Some b.
Proof.
  intros Ha Hb Htail. unfold JsString.split_space.
  rewrite (split_space_aux_word EmptyString a) by done.
  rewrite append_nil_l.
  change (" " +:+ b +:+ tail) with (String " " (b +:+ tail)).
  cbn [JsString.split_space_aux]. change (Ascii.eqb " " " ") with true. cbv iota.
  rewrite (split_space_aux_word EmptyString b) by done.
  rewrite append_nil_l.
  by destruct Htail as [-> | (t & ->)].
Qed.

(** ** Dispatch *)

Lemma orders_not_public p :
  matches_star "/api/orders" p = true ->
  matches_star "/api/users" p = false /\ matches_star "/api/auth" p = false
  /\ matches_star "/api/products" p = false.
Proof.
  unfold matches_star. intros H.
  repeat (apply GatewayFacts.prefix_cons in H as (? & -> & H)). done.
Qed.

(** The layers ahead of the routes let a request on a proxied path through. *)
Lemma gateway_reaches_routes w req now st :
  proxied (path req) = true ->
  gateway w req now st
  = dispatch [users; auth; products; orders; rate_limiter; error_handler;
              not_found] w req now st.
Proof.
  intros Hp. unfold gateway, app. cbn [dispatch library_middleware].
  by rewrite GatewayFacts.health_passes, GatewayFacts.metrics_passes.
Qed.

Lemma proxyRequest_relayed w req now target p st :
  proxyRequest w req now target p st
  = (Respond (relayed target now
                (backend w target (method req) p (body req) (authorization req))),
     State (rateLimit st) (events st ++ [Forwarded target (method req) p])).
Proof.
  unfold proxyRequest, relayed, emit.
  by destruct (backend w target (method req) p (body req) (authorization req)).
Qed.

Lemma lower_append a b :
  JsString.lower (a +:+ b) = JsString.lower a +:+ JsString.lower b.
Proof.
  induction a as [|c a IH]; [done |].
  rewrite append_cons. cbn [JsString.lower]. by rewrite append_cons, IH.
Qed.

(** Decides the route patterns on a path whose lower-case form starts with a
    known prefix. *)
Ltac route_match Hl :=
  unfold matches_star; rewrite Hl;
  repeat first
    [ rewrite prefix_append
    | match goal with
      | |- context [String.prefix ?a ?b] =>
          change (String.prefix a b) with false
      end ].

(** X1.  Reverse dispatch of the four route families.  For a path made of
    the family's prefix and any suffix, the gateway calls the family's
    backend once, at the backend-local path (prefix replaced), with the
    request's method, body and Authorization header as they came; it relays
    the backend's status and body whatever the status, and answers 503 naming
    the backend and the instant when the backend cannot be reached.  On order
    routes this holds once the token has been accepted. *)
Theorem gateway_relays_backend w req now st suffix :
  let forwarded target local :=
    (relayed target now
       (backend w target (method req) (local +:+ suffix) (body req)
                (authorization req)),
     State (rateLimit st)
           (events st ++ [Forwarded target (method req) (local +:+ suffix)])) in
  (path req = "/api/users" +:+ suffix ->
   gateway w req now st = forwarded UserService "/users")
  /\ (path req = "/api/auth" +:+ suffix ->
      gateway w req now st = forwarded UserService "/auth")
  /\ (path req = "/api/products" +:+ suffix ->
      gateway w req now st = forwarded ProductService "/products")
  /\ (path req = "/api/orders" +:+ suffix ->
      authenticateToken w req = None ->
      gateway w req now st = forwarded OrderService "/orders").
Proof.
  intros forwarded. subst forwarded. cbv beta.
  assert (forall pfx, JsString.lower pfx = pfx -> path req = pfx +:+ suffix ->
            JsString.lower (path req) = pfx +:+ JsString.lower suffix) as Hlower.
  { intros pfx Hpfx ->. by rewrite lower_append, Hpfx. }
  repeat split.
  - intros Hpath. pose proof (Hlower _ eq_refl Hpath) as Hl.
    rewrite gateway_reaches_routes by (unfold proxied; route_match Hl; done).
    cbn [dispatch]. unfold users. route_match Hl. cbv iota.
    rewrite proxyRequest_relayed, Hpath, replace_prefix. done.
  - intros Hpath. pose proof (Hlower _ eq_refl Hpath) as Hl.
    rewrite gateway_reaches_routes by (unfold proxied; route_match Hl; done).
    cbn [dispatch]. unfold users, auth. route_match Hl. cbv iota.
    rewrite proxyRequest_relayed, Hpath, replace_prefix. done.
  - intros Hpath. pose proof (Hlower _ eq_refl Hpath) as Hl.
    rewrite gateway_reaches_routes by (unfold proxied; route_match Hl; done).
    cbn [dispatch]. unfold users, auth, products. route_match Hl. cbv iota.
    rewrite proxyRequest_relayed, Hpath, replace_prefix. done.
  - intros Hpath Htoken. pose proof (Hlower _ eq_refl Hpath) as Hl.
    rewrite gateway_reaches_routes by (unfold proxied; route_match Hl; done).
    cbn [dispatch]. unfold users, auth, products, orders. route_match Hl.
    cbv iota. rewrite Htoken.
    rewrite proxyRequest_relayed, Hpath, replace_prefix. done.
Qed.

Lemma gateway_relays_backend_witness :
  let w := World (fun _ _ _ _ _ => Replied 404 "{error:x}") (fun _ => false) in
  let req := Request GET "/api/products/42" "10.0.0.1" None EmptyString in
  gateway w req 7 (State ∅ [])
  = (Response 404 (JRelayed "{error:x}"),
     State ∅ [Forwarded ProductService GET "/products/42"]).
Proof.
  intros w req.
  exact (proj1 (proj2 (proj2 (gateway_relays_backend w req 7 (State ∅ []) "/42")))
           eq_refl).
Defined.

(** X2.  The token check of the gateway.  Without an Authorization header,
    or with a header of a single word, the answer is 401.  Otherwise the
    token is the second space-separated word of the header, whatever the
    first word is (the scheme is not looked at) and whatever follows the
    second: an empty second word gives 401, a word the verifier refuses gives
    403, and a word it accepts lets the request through. *)
Theorem authenticateToken_reads_second_word w req :
  (authorization req = None ->
   authenticateToken w req = Some (Response 401 (JError "Access token required")))
  /\ (forall header,
        authorization req = Some header -> spaceless header = true ->
        authenticateToken w req
        = Some (Response 401 (JError "Access token required")))
  /\ (forall scheme token tail,
        authorization req = Some (scheme +:+ " " +:+ token +:+ tail) ->
        spaceless scheme = true -> spaceless token = true ->
        tail = EmptyString \/ (exists t, tail = String " " t) ->
        authenticateToken w req
        = if JsString.truthy token
          then if jwt_verify w token then None
               else Some (Response 403 (JError "Invalid token"))
          else Some (Response 401 (JError "Access token required"))).
Proof.
  repeat split.
  - intros H. unfold authenticateToken. by rewrite H.
  - intros header H Hs. unfold authenticateToken. rewrite H.
    rewrite split_space_word by done.
    by destruct (JsString.truthy header).
  - intros scheme token tail H Hs Ht Htail. unfold authenticateToken. rewrite H.
    rewrite split_space_second by done.
    destruct (JsString.truthy (scheme +:+ " " +:+ token +:+ tail)) eqn:E; [done |].
    destruct scheme; discriminate.
Qed.

Lemma authenticateToken_reads_second_word_witness :
  let w := World (fun _ _ _ _ _ => Unreachable) (fun t => String.eqb t "t0k") in
  authenticateToken w (Request GET "/api/orders" "c" (Some "Basic t0k") EmptyString)
  = None
  /\ authenticateToken w (Request GET "/api/orders" "c" (Some "Bearer") EmptyString)
     = Some (Response 401 (JError "Access token required")).
Proof.
  intros w. split.
  - exact (proj2 (proj2 (authenticateToken_reads_second_word w
             (Request GET "/api/orders" "c" (Some "Basic t0k") EmptyString)))
           "Basic" "t0k" EmptyString eq_refl eq_refl eq_refl (or_introl eq_refl)).
  - exact (proj1 (proj2 (authenticateToken_reads_second_word w
             (Request GET "/api/orders" "c" (Some "Bearer") EmptyString)))
           "Bearer" eq_refl eq_refl).
Defined.

(** X3.  Credentials are checked on order routes only.  A request on an
    order route whose token check fails gets that refusal (401 or 403); it is
    not forwarded and nothing changes at the gateway.  On the user, auth and
    product routes the verifier plays no part: the outcome is the same with
    any other verifier, the Authorization header being handed to the backend
    unread. *)
Theorem gateway_checks_token_on_orders_only w req now st :
  (forall refusal,
     matches_star "/api/orders" (path req) = true ->
     authenticateToken w req = Some refusal ->
     gateway w req now st = (refusal, st))
  /\ (forall verify,
        public (path req) = true ->
        gateway (World (backend w) verify) req now st = gateway w req now st).
Proof.
  split.
  - intros refusal Ho Ht.
    destruct (orders_not_public _ Ho) as (Hu & Ha & Hp).
    rewrite gateway_reaches_routes
      by (unfold proxied; rewrite Ho; apply orb_true_r).
    cbn [dispatch]. unfold users, auth, products, orders.
    by rewrite Hu, Ha, Hp, Ho, Ht.
  - intros verify Hpub.
    assert (proxied (path req) = true) as Hprox
      by (unfold proxied; fold (public (path req)); by rewrite Hpub).
    rewrite !gateway_reaches_routes by done.
    cbn [dispatch]. unfold users, auth, products.
    unfold public in Hpub.
    destruct (matches_star "/api/users" (path req));
      [by rewrite !proxyRequest_relayed |].
    destruct (matches_star "/api/auth" (path req));
      [by rewrite !proxyRequest_relayed |].
    destruct (matches_star "/api/products" (path req));
      [by rewrite !proxyRequest_relayed |].
    cbn in Hpub. discriminate.
Qed.

Lemma gateway_checks_token_on_orders_only_witness :
  let w := World (fun _ _ _ _ _ => Replied 200 "[]") (fun _ => false) in
  let req := Request GET "/api/orders" "c" (Some "Bearer forged") EmptyString in
  gateway w req 5 (State ∅ []) = (Response 403 (JError "Invalid token"), State ∅ []).
Proof.
  intros w req.
  exact (proj1 (gateway_checks_token_on_orders_only w req 5 (State ∅ []))
           (Response 403 (JError "Invalid token")) eq_refl eq_refl).
Defined.



(** ** The limiter's table *)

(** X5.  Clients do not interfere at the limiter: the verdicts a client
    receives over any sequence of arrivals are those it would receive if its
    own arrivals were the only ones, and they depend on the table through the
    client's own bucket only. *)
Theorem rate_limiter_isolates_clients clientIP reqs :
  forall tbl tbl' : gmap string bucket,
    tbl !! clientIP = tbl' !! clientIP ->
    verdicts_for clientIP (verdicts reqs tbl)
    = map snd (verdicts (arrivals_from clientIP reqs) tbl').
Proof.
  unfold verdicts_for, arrivals_from.
  induction reqs as [|[other t] reqs IH]; intros tbl tbl' Heq; [done |].
  cbn [verdicts List.filter fst].
  destruct (String.eqb other clientIP) eqn:E.
  - apply String.eqb_eq in E. subst other.
    cbn [verdicts map snd fst]. f_equal.
    + unfold rate_check. cbn [fst]. by rewrite Heq.
    + apply IH. rewrite !RateLimiterFacts.rate_check_same. by rewrite Heq.
  - apply String.eqb_neq in E. apply IH.
    by rewrite RateLimiterFacts.rate_check_other.
Qed.

Lemma rate_limiter_isolates_clients_witness :
  let busy : gmap string bucket := {[ "b" := Bucket 500 60000 ]} in
  verdicts_for "a" (verdicts [("a", 1); ("b", 2); ("a", 3)] busy)
  = map snd (verdicts [("a", 1); ("a", 3)] (∅ : gmap string bucket)).
Proof.
  intros busy.
  exact (rate_limiter_isolates_clients "a" [("a", 1); ("b", 2); ("a", 3)]
           busy ∅ eq_refl).
Defined.

(** X6.  The limiter's table only grows: after any sequence of arrivals it
    holds a bucket for every client it held one for and for every client that
    arrived, and for no other key; no bucket is ever removed. *)
Theorem rate_limiter_never_forgets reqs :
  forall tbl : gmap string bucket,
    dom (rate_check_all reqs tbl) = dom tbl ∪ list_to_set (map fst reqs).
Proof.
  induction reqs as [|[clientIP t] reqs IH]; intros tbl.
  - cbn. by rewrite (right_id_L ∅ (∪)).
  - cbn [rate_check_all map fst]. rewrite IH.
    rewrite RateLimiterFacts.rate_check_table, dom_insert_L, list_to_set_cons.
    rewrite (comm_L (∪) {[clientIP]} (dom tbl)). by rewrite (assoc_L (∪)).
Qed.

(** X24.  The probes are the gateway's own.  A GET on [/health] or
    [/metrics] is answered 200 by the gateway itself: no backend is called,
    no token is read, the limiter's table and the event log are left as they
    were, whatever the table holds for the client. *)
Theorem gateway_answers_probes w req now st :
  probed req = true ->
  gateway w req now st
  = (if matches_exact "/health" (path req)
     then Response 200 (JHealth now)
     else Response 200 JMetrics,
     st).
Proof.
  unfold probed. intros H.
  destruct (method req) eqn:Hm; try discriminate H.
  unfold gateway, app. cbn [dispatch library_middleware].
  unfold health. rewrite Hm.
  destruct (matches_exact "/health" (path req)); [done |].
  cbn [dispatch]. unfold metrics. rewrite Hm.
  cbn in H. by rewrite H.
Qed.

Lemma gateway_answers_probes_witness :
  let w := World (fun _ _ _ _ _ => Unreachable) (fun _ => false) in
  let busy : gmap string bucket := {[ "c" := Bucket 100 60000 ]} in
  gateway w (Request GET "/Health/" "c" None EmptyString) 5 (State busy [])
  = (Response 200 (JHealth 5), State busy []).
Proof.
  intros w busy.
  exact (gateway_answers_probes w (Request GET "/Health/" "c" None EmptyString) 5
           (State busy []) eq_refl).
Defined.

End GatewayExtras.

(* ===================================================================== *)
(** * Further facts about the Order Service *)
(* ===================================================================== *)

Module OrderServiceExtras.
Import OrderService OrderNotions OrderServiceFacts.
Section Extras.
Context {N : JsNumber} {S : Schema}.

(** ** The five ways through POST /orders *)

(** A property holds of a creation as soon as it holds of each of its five
    outcomes: no items, a first invalid product, the order row refused, an
    item row refused, the order created. *)
Lemma createOrder_elim (P : outcome unit * store -> Prop)
    products userId items shippingAddress now s :
  (items = None \/ items = Some [] ->
   P (Returned (Response 400 (JError "Order items are required")),
      Store (orders s) (order_items s) (orders_id_seq s) (order_items_id_seq s)
            (Some (rows_at_begin s))
            (journal s ++ [Connect; Begin; Release]))) ->
  (forall before x after prods,
     items = Some (before ++ x :: after) ->
     answers products 0 before = map Some prods ->
     products (length before) (Item.productId x) = None ->
     P (Returned (Response 400
          (JError ("Invalid product: " +:+ Item.productId x))),
        Store (orders s) (order_items s) (orders_id_seq s)
              (order_items_id_seq s) (Some (rows_at_begin s))
              (journal s ++ [Connect; Begin] ++ lookups (before ++ [x])
                 ++ [Release]))) ->
  (forall its prods,
     items = Some its -> its <> [] ->
     answers products 0 its = map Some prods ->
     orders_accepts userId (order_total its prods) shippingAddress = false ->
     P (Returned (Response 500 (JError "Internal server error")),
        Store (rows_at_begin s).1 (rows_at_begin s).2
              (orders_id_seq s) (order_items_id_seq s) None
              (journal s ++ [Connect; Begin] ++ lookups its
                 ++ [Rejected; Rollback; Release]))) ->
  (forall its prods ok bad rest,
     items = Some its -> its <> [] ->
     answers products 0 its = map Some prods ->
     orders_accepts userId (order_total its prods) shippingAddress = true ->
     zip_with validated_item its prods = ok ++ bad :: rest ->
     forallb (accepted (orders_id_seq s)) ok = true ->
     accepted (orders_id_seq s) bad = false ->
     P (Returned (Response 500 (JError "Internal server error")),
        Store (rows_at_begin s).1 (rows_at_begin s).2
              (orders_id_seq s + 1)
              (order_items_id_seq s + Z.of_nat (length ok)) None
              (journal s ++ [Connect; Begin] ++ lookups its
                 ++ [InsertOrder (orders_id_seq s)]
                 ++ inserts (orders_id_seq s) ok
                 ++ [Rejected; Rollback; Release]))) ->
  (forall its prods,
     items = Some its -> its <> [] ->
     answers products 0 its = map Some prods ->
     orders_accepts userId (order_total its prods) shippingAddress = true ->
     forallb (accepted (orders_id_seq s)) (zip_with validated_item its prods)
     = true ->
     let vs := zip_with validated_item its prods in
     let row := new_order s userId (order_total its prods) shippingAddress now in
     let s' :=
       Store (orders s ++ [row])
             (order_items s
                ++ item_rows (orders_id_seq s) (order_items_id_seq s) now vs)
             (orders_id_seq s + 1)
             (order_items_id_seq s + Z.of_nat (length vs))
             None
             (journal s ++ [Connect; Begin] ++ lookups its
                ++ [InsertOrder (orders_id_seq s)]
                ++ inserts (orders_id_seq s) vs
                ++ [Commit; Release]) in
     P (Returned (Response 201
          (JCreated "Order created successfully"
                    (getOrderById (orders_id_seq s) None s'))),
        s')) ->
  P (createOrder products userId items shippingAddress now s).
Proof.
  intros Hnone Hmissing Horder Hitem Hcreated.
  destruct items as [[|it rest]|].
  - rewrite createOrder_no_items by auto. apply Hnone. auto.
  - remember (it :: rest) as its eqn:Hits.
    assert (its <> []) as Hne by (by subst its).
    destruct (answers_cases products its 0)
      as [(prods & Hans) | (before & x & after & prods & Heq & Hb & Hx)].
    + destruct (orders_accepts userId (order_total its prods) shippingAddress)
        eqn:Hacc.
      * destruct (accepted_cases (orders_id_seq s)
                    (zip_with validated_item its prods))
          as [Hall | (ok & bad & more & Hvs & Hok & Hbad)].
        -- rewrite (createOrder_created products userId its prods) by done.
           by apply Hcreated.
        -- rewrite (createOrder_item_refused products userId its prods
                      shippingAddress now s ok bad more) by done.
           by eapply Hitem.
      * rewrite (createOrder_order_refused products userId its prods) by done.
        by eapply Horder.
    + rewrite Heq.
      rewrite (createOrder_missing_product products userId before x after prods)
        by done.
      eapply Hmissing; [by rewrite <- Heq | done | done].
  - rewrite createOrder_no_items by auto. apply Hnone. auto.
Qed.

Lemma lookups_unclosed its : existsb is_closing (lookups its) = false.
Proof. by induction its. Qed.

(** X7.  Creation is all or nothing, persistence failures included.  Called
    with no transaction open on the connection, createOrder always answers,
    with 201, 400 or 500; unless the answer is 201 the two tables hold exactly
    the rows they held before, also when the store refused a row after
    others had been inserted. *)
Theorem createOrder_all_or_nothing
    products userId items shippingAddress now s :
  transaction s = None ->
  let out := createOrder products userId items shippingAddress now s in
  exists r,
    fst out = Returned r
    /\ (code r = 201 \/ code r = 400 \/ code r = 500)
    /\ (code r <> 201 ->
        orders (snd out) = orders s /\ order_items (snd out) = order_items s).
Proof.
  intros Hnone out. subst out.
  assert (rows_at_begin s = (orders s, order_items s)) as Hrows
    by (unfold rows_at_begin; by rewrite Hnone).
  apply createOrder_elim; intros; rewrite ?Hrows; cbn [fst snd orders order_items];
    eexists; (split; [reflexivity |]); cbn [code]; (split; [auto |]); done.
Qed.

(** X8.  Which exits close the transaction.  On the two 400 answers (no
    items, an invalid product) createOrder gives the connection back with the
    transaction it opened still open: neither [COMMIT] nor [ROLLBACK] was
    issued.  On every other answer no transaction is open at the release. *)
Theorem createOrder_400_leaves_transaction_open
    products userId items shippingAddress now s :
  let out := createOrder products userId items shippingAddress now s in
  forall r,
    fst out = Returned r ->
    (code r = 400 ->
     transaction (snd out) = Some (rows_at_begin s)
     /\ exists work,
          journal (snd out) = journal s ++ [Connect; Begin] ++ work ++ [Release]
          /\ unclosed work)
    /\ (code r <> 400 -> transaction (snd out) = None).
Proof.
  intros out. subst out. unfold unclosed.
  apply createOrder_elim; intros; cbn [fst snd] in *;
    match goal with H : Returned _ = Returned _ |- _ => injection H as <- end;
    cbn [code transaction journal]; (split; [| done]); intros Hcode;
    try discriminate Hcode.
  - split; [done |]. by exists [].
  - split; [done |]. eexists. split; [done | apply lookups_unclosed].
Qed.

(** ** Well-formed stores *)













(** ** Reading back *)

Lemma filter_all {A} (f : A -> bool) (l : list A) :
  (forall x, x ∈ l -> f x = true) -> List.filter f l = l.
Proof.
  induction l as [|a l IH]; intros H; cbn; [done |].
  rewrite (H a) by (by left). f_equal. apply IH. intros x Hx. apply H. by right.
Qed.

(** X11.  A created order can be read back.  When createOrder answers 201 on
    a well-formed store for a caller whose id is not 0, the body holds the new
    order row, owned by the caller and pending, with exactly the item rows
    just inserted; these are the rows appended to the two tables; getOrder by
    the same caller returns the same order and items, and getOrder by any
    other caller (id not 0) answers 404. *)
Theorem created_order_can_be_read_back
    products userId requested shippingAddress now s r :
  store_wf s -> userId <> 0 ->
  let out := createOrder products userId requested shippingAddress now s in
  fst out = Returned r -> code r = 201 ->
  exists v,
    payload r = JCreated "Order created successfully" (Some v)
    /\ orders (snd out) = orders s ++ [order v]
    /\ order_items (snd out) = order_items s ++ items v
    /\ Order.user_id (order v) = userId
    /\ Order.status (order v) = "pending"
    /\ getOrder userId (Order.id (order v)) (snd out)
       = (Returned (Response 200 (JOrder v)), snd out)
    /\ (forall other,
          other <> 0 -> other <> userId ->
          fst (getOrder other (Order.id (order v)) (snd out))
          = Returned (Response 404 (JError "Order not found"))).
Proof.
  intros Hwf Hu out Hout Hcode.
  destruct (createOrder_201_inv _ _ _ _ _ _ _ Hout Hcode)
    as (its & prods & -> & Hne & Hans & Horder & Hitems).
  subst out.
  rewrite (createOrder_created products userId its prods) in Hout |- * by done.
  cbn [fst snd] in *. injection Hout as <-. cbn [payload].
  set (seq := orders_id_seq s).
  set (row := new_order s userId (order_total its prods) shippingAddress now).
  set (rows := item_rows seq (order_items_id_seq s) now
                 (zip_with validated_item its prods)).
  set (s' := Store _ _ _ _ _ _).
  destruct Hwf as [(Hb & _ & _ & _ & Hfk) _].
  assert (forall o, o ∈ orders s -> (Order.id o =? seq) = false) as Hold.
  { intros o Ho. apply (proj1 (Forall_forall _ _) Hb) in Ho.
    apply Z.eqb_neq. subst seq. lia. }
  assert (forall it, it ∈ order_items s -> (OrderItem.order_id it =? seq) = false)
    as Hiold.
  { intros it Hit.
    destruct (proj1 (Forall_forall _ _) Hfk it Hit) as (o & Ho & Hid).
    apply (proj1 (Forall_forall _ _) Hb) in Ho.
    apply Z.eqb_neq. subst seq. lia. }
  assert (items_of seq s' = rows) as Hitems_of.
  { unfold items_of. subst s'. cbn [order_items]. rewrite List.filter_app.
    rewrite (proj2 (filter_nil _ _)) by exact Hiold.
    cbn [app]. apply filter_all. intros it Hit.
    pose proof (item_rows_order_id seq now
                  (zip_with validated_item its prods) (order_items_id_seq s))
      as Hall.
    apply (proj1 (Forall_forall _ _) Hall) in Hit. by apply Z.eqb_eq. }
  assert (forall u,
            List.filter (fun o => (Order.id o =? seq) && (Order.user_id o =? u))%bool
                        (orders s')
            = if userId =? u then [row] else []) as Hfilter.
  { intros u. subst s'. cbn [orders]. rewrite List.filter_app.
    rewrite (proj2 (filter_nil _ _)); [| intros o Ho; by rewrite (Hold o Ho)].
    cbn. subst seq. rewrite Z.eqb_refl. by destruct (userId =? u). }
  assert (getOrderById seq None s' = Some (View row rows)) as Hget.
  { unfold getOrderById. rewrite Hitems_of.
    replace (List.filter _ (orders s')) with [row]; [done |].
    subst s'. cbn [orders owner_clause]. rewrite List.filter_app.
    rewrite (proj2 (filter_nil _ _));
      [| intros o Ho; by rewrite (Hold o Ho)].
    cbn. subst seq. by rewrite Z.eqb_refl. }
  exists (View row rows). cbn [order items].
  split; [by rewrite Hget |]. split; [done |]. split; [done |].
  split; [done |]. split; [done |]. split.
  - rewrite getOrder_run, getOrderById_owner by done.
    change (Order.id row) with seq. rewrite Hfilter, Z.eqb_refl.
    by rewrite Hitems_of.
  - intros other Ho Hne'. rewrite getOrder_run, getOrderById_owner by done.
    change (Order.id row) with seq. rewrite Hfilter.
    destruct (userId =? other) eqn:E; [apply Z.eqb_eq in E; congruence | done].
Qed.

(** ** Listing *)

Local Instance newest_first_transitive : Transitive newest_first.
Proof. unfold newest_first. intros a b c Hab Hbc. lia. Qed.

Local Instance newest_first_total : Total newest_first.
Proof. unfold newest_first. intros a b. lia. Qed.

Lemma strongly_sorted_take_drop (l : list Order.t) n m :
  StronglySorted newest_first l ->
  StronglySorted newest_first (take n (drop m l)).
Proof.
  intros H.
  rewrite <- (take_drop m l) in H. apply StronglySorted_app_1_r in H.
  rewrite <- (take_drop n (drop m l)) in H. by apply StronglySorted_app_1_l in H.
Qed.

Lemma strongly_sorted_views (f : Order.t -> order_view) (l : list Order.t) :
  (forall o, order (f o) = o) ->
  StronglySorted newest_first l -> StronglySorted newest_view_first (map f l).
Proof.
  intros Hf. induction 1 as [|o l Hl IH Hall]; cbn; constructor; [done |].
  rewrite Forall_map. eapply Forall_impl; [exact Hall |].
  cbn. intros o' Ho'. unfold newest_view_first. by rewrite !Hf.
Qed.

(** X12.  What a page of listOrders holds.  Every order of a 200 answer is a
    row of the store owned by the caller, carries the requested status when a
    non-empty status filter was given, and comes with exactly the item rows
    that refer to it; the page is ordered newest first.  Without a page
    number (or with page 1), when the limit is not below the number of
    selected orders, the page holds all of them. *)
Theorem listOrders_page_content userId page limit status s os p l total :
  fst (listOrders userId page limit status s)
  = Returned (Response 200 (JOrders os p l total)) ->
  Forall (fun v =>
            order v ∈ orders s
            /\ Order.user_id (order v) = userId
            /\ (forall wanted,
                  status = Some wanted -> wanted <> EmptyString ->
                  Order.status (order v) = wanted)
            /\ items v = items_of (Order.id (order v)) s) os
  /\ StronglySorted newest_view_first os
  /\ (page = None \/ page = Some 1 ->
      (length (selected userId status s) <= Z.to_nat l)%nat ->
      map order os ≡ₚ selected userId status s).
Proof.
  rewrite listOrders_run. fold (selected userId status s).
  set (sorted := merge_sort newest_first (selected userId status s)).
  destruct (_ || _)%bool; [done |]. cbn [fst].
  intros [= <- <- <- <-].
  assert (forall o, o ∈ sorted -> o ∈ selected userId status s) as Hsel.
  { intros o Ho. subst sorted. by rewrite merge_sort_Permutation in Ho. }
  repeat split.
  - rewrite Forall_map. apply Forall_forall. intros o Ho. cbn [order items].
    apply subseteq_take, subseteq_drop, Hsel in Ho.
    unfold selected in Ho. apply list_elem_of_In, filter_In in Ho as [Hin Hf].
    apply andb_prop in Hf as [Hown Hst].
    split; [by apply list_elem_of_In |]. split; [by apply Z.eqb_eq |].
    split; [| done].
    intros wanted -> Hw. cbn in Hst.
    destruct (JsString.truthy wanted) eqn:Ht.
    + by apply String.eqb_eq.
    + unfold JsString.truthy in Ht. apply negb_false_iff, String.eqb_eq in Ht.
      done.
  - apply strongly_sorted_views; [done |].
    apply strongly_sorted_take_drop. subst sorted.
    apply StronglySorted_merge_sort; apply _.
  - intros Hpage Hlen. rewrite map_map. cbn [order]. rewrite map_id.
    assert ((default 1 page - 1) * default 10 limit = 0) as ->
      by (destruct Hpage as [-> | ->]; cbn; lia).
    cbn [Z.to_nat drop]. rewrite take_ge.
    + subst sorted. apply merge_sort_Permutation.
    + subst sorted. rewrite merge_sort_Permutation. exact Hlen.
Qed.

(** ** Cancelling *)


End Extras.
End OrderServiceExtras.


(* ===================================================================== *)
(** * The order service's further facts on sample requests *)
(* ===================================================================== *)

Module OrderServiceExtraExamples.
Import OrderService OrderNotions OrderServiceExtras.

Lemma initial_store_wf :
  store_wf (OrderService.initial (N := Concrete.integral)).
Proof.
  repeat split; cbn; try constructor.
Qed.

Lemma createOrder_all_or_nothing_witness :
  exists r,
    fst (Concrete.create (Concrete.refusing "p2")
           [Concrete.item "p1" 2; Concrete.item "p2" 1]) = Returned r
    /\ code r = 500
    /\ orders (snd (Concrete.create (Concrete.refusing "p2")
                      [Concrete.item "p1" 2; Concrete.item "p2" 1])) = [].
Proof.
  destruct (createOrder_all_or_nothing (S := Concrete.refusing "p2")
              Concrete.shop 7
              (Some [Concrete.item "p1" 2; Concrete.item "p2" 1])
              (Some "{}") 1000 (OrderService.initial (N := Concrete.integral))
              eq_refl) as (r & Hr & _ & Hkeep).
  exists r. split; [exact Hr |].
  assert (code r = 500) as Hcode.
  { vm_compute in Hr. injection Hr as <-. reflexivity. }
  split; [exact Hcode |].
  apply Hkeep. rewrite Hcode. discriminate.
Defined.

Lemma createOrder_400_leaves_transaction_open_witness :
  transaction (snd (Concrete.create Concrete.lenient [Concrete.item "p9" 1]))
  = Some ([], []).
Proof.
  exact (proj1 (proj1 (createOrder_400_leaves_transaction_open
                         (S := Concrete.lenient) Concrete.shop 7
                         (Some [Concrete.item "p9" 1]) (Some "{}") 1000
                         (OrderService.initial (N := Concrete.integral))
                         (Response 400 (JError "Invalid product: p9"))
                         eq_refl)
                  eq_refl)).
Defined.



Lemma created_order_can_be_read_back_witness :
  exists v,
    getOrder 7 (Order.id (order v))
      (snd (Concrete.create Concrete.lenient [Concrete.item "p1" 2]))
    = (Returned (Response 200 (JOrder v)),
       snd (Concrete.create Concrete.lenient [Concrete.item "p1" 2])).
Proof.
  assert ((7 : Z) <> 0) as H7 by discriminate.
  destruct (created_order_can_be_read_back (S := Concrete.lenient)
              Concrete.shop 7 (Some [Concrete.item "p1" 2]) (Some "{}") 1000
              _ _ initial_store_wf H7 eq_refl eq_refl)
    as (v & _ & _ & _ & _ & _ & Hget & _).
  exists v. exact Hget.
Defined.

Lemma listOrders_page_content_witness :
  exists os p l total,
    fst (listOrders 7 None None None Concrete.ledger)
    = Returned (Response 200 (JOrders os p l total))
    /\ StronglySorted newest_view_first os.
Proof.
  eexists _, _, _, _. split; [reflexivity |].
  exact (proj1 (proj2 (listOrders_page_content 7 None None None Concrete.ledger
                         _ _ _ _ eq_refl))).
Defined.

End OrderServiceExtraExamples.


(* ===================================================================== *)
(** * Facts about the User service *)
(* ===================================================================== *)

Module UserServiceFacts.
Import UserService GatewayNotions.

Lemma missing_some v : missing (Some v) = false -> v <> EmptyString.
Proof. intros H ->. discriminate H. Qed.

Lemma by_email_app e us1 us2 n1 n2 :
  by_email e (Store (us1 ++ us2) n1) = by_email e (Store us1 n2) ++ by_email e (Store us2 n2).
Proof. unfold by_email. cbn. apply List.filter_app. Qed.

Lemma by_email_nil e s :
  by_email e s = [] -> e ∉ map UserRow.email (users s).
Proof.
  unfold by_email. intros H Hin.
  apply list_elem_of_fmap in Hin as (u & -> & Hu).
  assert (u ∈ List.filter (fun u' => String.eqb (UserRow.email u') (UserRow.email u))
                          (users s)) as Hf.
  { apply list_elem_of_In, List.filter_In. split.
    - by apply list_elem_of_In.
    - apply String.eqb_refl. }
  rewrite H in Hf. by apply not_elem_of_nil in Hf.
Qed.

Lemma by_id_fresh userId us :
  Forall (fun u => UserRow.id u < userId) us ->
  List.filter (fun u => UserRow.id u =? userId) us = [].
Proof.
  induction 1 as [|u us Hu _ IH]; [done |].
  cbn. rewrite IH. destruct (Z.eqb_spec (UserRow.id u) userId); [lia | done].
Qed.

(** The four exits of [register]. *)
Lemma register_elim (Q : response * store -> Prop)
    P email password firstName lastName salt now s :
  ((missing email || missing password)%bool = true ->
   Q (Response 400 (JError "Email and password required"), s)) ->
  (forall e p,
     email = Some e -> password = Some p -> e <> EmptyString -> p <> EmptyString ->
     by_email e s <> [] ->
     Q (Response 409 (JError "User already exists"), s)) ->
  (forall e p,
     email = Some e -> password = Some p -> e <> EmptyString -> p <> EmptyString ->
     by_email e s = [] ->
     users_accepts P e (bcrypt_hash P p salt) firstName lastName = false ->
     Q (Response 500 (JError "Internal server error"), s)) ->
  (forall e p,
     email = Some e -> password = Some p -> e <> EmptyString -> p <> EmptyString ->
     by_email e s = [] ->
     users_accepts P e (bcrypt_hash P p salt) firstName lastName = true ->
     let user := UserRow.Make (users_id_seq s) e (bcrypt_hash P p salt)
                              firstName lastName now now in
     Q (Response 201
          (JSession "User created successfully" (public_view user)
                    (jwt_sign P (users_id_seq s) e now)),
        Store (users s ++ [user]) (users_id_seq s + 1))) ->
  Q (register P email password firstName lastName salt now s).
Proof.
  intros H400 H409 H500 H201. unfold register.
  destruct (missing email || missing password)%bool eqn:Hm; [by apply H400 |].
  apply orb_false_elim in Hm as [He Hp].
  destruct email as [e|]; [| done]. destruct password as [p|]; [| done].
  apply missing_some in He, Hp. cbn [default from_option id].
  destruct (by_email e s) as [|u us] eqn:Hknown.
  - destruct (users_accepts P e (bcrypt_hash P p salt) firstName lastName) eqn:Hacc.
    + by apply (H201 e p).
    + by apply (H500 e p).
  - apply (H409 e p); try done. by rewrite Hknown.
Qed.

(** X14.  Registration keeps the table of users well-formed: keys stay below
    the sequence and unique, and e-mail addresses stay unique.  The answer is
    201, 400, 409 or 500; unless it is 201 the store is unchanged, and on 201
    exactly one row is appended, with the address asked, the next key of the
    sequence and the hash of the password. *)
Theorem register_keeps_users_wf P email password firstName lastName salt now s :
  users_wf s ->
  let out := register P email password firstName lastName salt now s in
  users_wf (snd out)
  /\ (code (fst out) = 201 \/ code (fst out) = 400
      \/ code (fst out) = 409 \/ code (fst out) = 500)
  /\ (code (fst out) <> 201 -> snd out = s)
  /\ (code (fst out) = 201 ->
      exists user,
        users (snd out) = users s ++ [user]
        /\ email = Some (UserRow.email user)
        /\ UserRow.id user = users_id_seq s
        /\ forall p, password = Some p ->
                     UserRow.password user = bcrypt_hash P p salt).
Proof.
  intros Hwf. cbv zeta.
  apply (register_elim
           (fun out =>
              users_wf (snd out)
              /\ (code (fst out) = 201 \/ code (fst out) = 400
                  \/ code (fst out) = 409 \/ code (fst out) = 500)
              /\ (code (fst out) <> 201 -> snd out = s)
              /\ (code (fst out) = 201 ->
                  exists user,
                    users (snd out) = users s ++ [user]
                    /\ email = Some (UserRow.email user)
                    /\ UserRow.id user = users_id_seq s
                    /\ forall p, password = Some p ->
                                 UserRow.password user = bcrypt_hash P p salt))).
  - intros _. cbn. split; [done |]. split; [auto |]. split; [done |].
    intros H; discriminate H.
  - intros e p _ _ _ _ _. cbn. split; [done |]. split; [auto |].
    split; [done |]. intros H; discriminate H.
  - intros e p _ _ _ _ _ _. cbn. split; [done |]. split; [auto |].
    split; [done |]. intros H; discriminate H.
  - intros e p -> -> _ _ Hnew _ user. cbn [fst snd code].
    destruct Hwf as (Hbelow & Hids & Hemails).
    split; [| split; [auto | split; [done |]]].
    + unfold users_wf. cbn [users users_id_seq].
      split; [| split].
      * apply Forall_app. split.
        -- eapply Forall_impl; [exact Hbelow |]. cbn. intros; lia.
        -- constructor; [cbn; lia | constructor].
      * rewrite map_app. apply NoDup_app. split; [done |]. split.
        -- intros i Hi Hi'. cbn in Hi'. apply list_elem_of_singleton in Hi'.
           apply list_elem_of_fmap in Hi as (u & -> & Hu).
           pose proof (proj1 (Forall_forall _ _) Hbelow u Hu) as Hlt.
           cbn in Hlt. lia.
        -- cbn. apply NoDup_singleton.
      * rewrite map_app. apply NoDup_app. split; [done |]. split.
        -- intros a Ha Ha'. cbn in Ha'. apply list_elem_of_singleton in Ha'.
           subst a. by apply by_email_nil in Hnew.
        -- cbn. apply NoDup_singleton.
    + intros _. exists user. cbn [users]. split; [done |]. split; [done |].
      split; [done |]. by intros p' [= <-].
Qed.

Lemma register_keeps_users_wf_witness :
  users_wf (snd ConcreteServices.ann).
Proof.
  assert (users_wf initial) as Hinit by (repeat split; cbn; constructor).
  exact (proj1 (register_keeps_users_wf ConcreteServices.platform
                  (Some "ann@example.org") (Some "s3cret") (Some "Ann") None
                  "salt" 10 initial Hinit)).
Defined.

(** X15.  An address registers once.  After a registration answered 201, any
    further registration of the same address, with whatever password and
    names, answers 409 and changes nothing. *)
Theorem register_same_address_twice
    P e password firstName lastName salt now p' firstName' lastName' salt' now' s :
  let out := register P (Some e) password firstName lastName salt now s in
  code (fst out) = 201 ->
  p' <> EmptyString ->
  register P (Some e) (Some p') firstName' lastName' salt' now' (snd out)
  = (Response 409 (JError "User already exists"), snd out).
Proof.
  cbv zeta.
  apply (register_elim
           (fun out =>
              code (fst out) = 201 -> p' <> EmptyString ->
              register P (Some e) (Some p') firstName' lastName' salt' now' (snd out)
              = (Response 409 (JError "User already exists"), snd out)));
    try (intros; discriminate).
  intros e0 p [= <-] -> He _ Hnew _ user _ Hp'. cbn [snd].
  unfold register.
  replace (missing (Some e) || missing (Some p'))%bool with false.
  2:{ cbn. unfold JsString.truthy.
      destruct (String.eqb_spec e EmptyString); [done |].
      by destruct (String.eqb_spec p' EmptyString). }
  cbn [default from_option id].
  rewrite (by_email_app e (users s) [user] _ (users_id_seq s)).
  replace (Store (users s) (users_id_seq s)) with s by (by destruct s).
  rewrite Hnew. unfold by_email. cbn. by rewrite String.eqb_refl.
Qed.

Lemma register_same_address_twice_witness :
  register ConcreteServices.platform (Some "ann@example.org") (Some "other")
    None None "pepper" 20 (snd ConcreteServices.ann)
  = (Response 409 (JError "User already exists"), snd ConcreteServices.ann).
Proof.
  apply (register_same_address_twice ConcreteServices.platform "ann@example.org"
           (Some "s3cret") (Some "Ann") None "salt" 10 "other" None None
           "pepper" 20 initial eq_refl).
  discriminate.
Defined.

Lemma login_present P e p now s :
  e <> EmptyString -> p <> EmptyString ->
  login P (Some e) (Some p) now s
  = match by_email e s with
    | [] => Response 401 (JError "Invalid credentials")
    | user :: _ =>
        if bcrypt_compare P p (UserRow.password user)
        then Response 200
               (JSession "Login successful"
                  (Profile.Make (UserRow.id user) (UserRow.email user)
                     (UserRow.first_name user) (UserRow.last_name user) None)
                  (jwt_sign P (UserRow.id user) (UserRow.email user) now))
        else Response 401 (JError "Invalid credentials")
    end.
Proof.
  intros He Hp. unfold login.
  replace (missing (Some e) || missing (Some p))%bool with false; [done |].
  cbn. unfold JsString.truthy.
  destruct (String.eqb_spec e EmptyString); [done |].
  by destruct (String.eqb_spec p EmptyString).
Qed.

(** X16.  Registration followed by login.  After a registration answered 201,
    a login with the same address and a password that the hash library
    accepts against the stored hash answers 200 with the registered key,
    address and names and a token signed for that key; a password the
    library refuses answers 401. *)
Theorem login_after_register P e p firstName lastName salt now p' now' s :
  let out := register P (Some e) (Some p) firstName lastName salt now s in
  code (fst out) = 201 ->
  p' <> EmptyString ->
  login P (Some e) (Some p') now' (snd out)
  = if bcrypt_compare P p' (bcrypt_hash P p salt)
    then Response 200
           (JSession "Login successful"
              (Profile.Make (users_id_seq s) e firstName lastName None)
              (jwt_sign P (users_id_seq s) e now'))
    else Response 401 (JError "Invalid credentials").
Proof.
  cbv zeta.
  apply (register_elim
           (fun out =>
              code (fst out) = 201 -> p' <> EmptyString ->
              login P (Some e) (Some p') now' (snd out)
              = if bcrypt_compare P p' (bcrypt_hash P p salt)
                then Response 200
                       (JSession "Login successful"
                          (Profile.Make (users_id_seq s) e firstName lastName None)
                          (jwt_sign P (users_id_seq s) e now'))
                else Response 401 (JError "Invalid credentials")));
    try (intros; discriminate).
  intros e0 p0 [= <-] [= <-] He _ Hnew _ user _ Hp'. cbn [snd].
  rewrite login_present by done.
  rewrite (by_email_app e (users s) [user] _ (users_id_seq s)).
  replace (Store (users s) (users_id_seq s)) with s by (by destruct s).
  rewrite Hnew. unfold by_email. cbn. by rewrite String.eqb_refl.
Qed.

Lemma login_after_register_witness :
  code (login ConcreteServices.platform (Some "ann@example.org") (Some "s3cret")
          99 (snd ConcreteServices.ann)) = 200
  /\ code (login ConcreteServices.platform (Some "ann@example.org") (Some "guess")
             99 (snd ConcreteServices.ann)) = 401.
Proof.
  unfold ConcreteServices.ann. split.
  - rewrite (login_after_register ConcreteServices.platform "ann@example.org"
               "s3cret" (Some "Ann") None "salt" 10 "s3cret" 99 initial eq_refl);
      [reflexivity | discriminate].
  - rewrite (login_after_register ConcreteServices.platform "ann@example.org"
               "s3cret" (Some "Ann") None "salt" 10 "guess" 99 initial eq_refl);
      [reflexivity | discriminate].
Defined.

(** X17.  A failed login does not tell why.  A login for an address nobody
    registered and a login for a registered address with a password the hash
    library refuses get the same answer, 401 with the same body, at whatever
    instants they are made. *)
Theorem login_failures_look_alike P e p e' p' now now' s user :
  e <> EmptyString -> p <> EmptyString ->
  e' <> EmptyString -> p' <> EmptyString ->
  by_email e s = [] ->
  head (by_email e' s) = Some user ->
  bcrypt_compare P p' (UserRow.password user) = false ->
  login P (Some e) (Some p) now s = login P (Some e') (Some p') now' s
  /\ login P (Some e) (Some p) now s
     = Response 401 (JError "Invalid credentials").
Proof.
  intros He Hp He' Hp' Hunknown Hknown Hwrong.
  rewrite !login_present by done. rewrite Hunknown.
  destruct (by_email e' s) as [|u us]; [done |].
  cbn in Hknown. injection Hknown as ->. by rewrite Hwrong.
Qed.

Lemma login_failures_look_alike_witness :
  login ConcreteServices.platform (Some "bob@example.org") (Some "s3cret") 50
    (snd ConcreteServices.ann)
  = login ConcreteServices.platform (Some "ann@example.org") (Some "guess") 60
      (snd ConcreteServices.ann).
Proof.
  refine (proj1 (login_failures_look_alike ConcreteServices.platform
                   "bob@example.org" "s3cret" "ann@example.org" "guess" 50 60
                   (snd ConcreteServices.ann)
                   (UserRow.Make 1 "ann@example.org" "$2a$10$s3cret" (Some "Ann") None
                      10 10)
                   _ _ _ _ eq_refl eq_refl eq_refl));
    discriminate.
Defined.

Lemma bearer_second_word scheme token :
  spaceless scheme = true -> spaceless token = true -> token <> EmptyString ->
  bearer (Some (scheme +:+ " " +:+ token)) = Some token.
Proof.
  intros Hs Ht Hne. unfold bearer.
  replace (JsString.truthy (scheme +:+ " " +:+ token)) with true
    by (by destruct scheme).
  rewrite <- (GatewayExtras.append_nil_r token) at 1.
  rewrite (GatewayExtras.split_space_second scheme token EmptyString) by auto.
  unfold JsString.truthy. by destruct (String.eqb_spec token EmptyString).
Qed.

(** X18.  What each failure code of the profile route stands for.  The
    answer is 401 exactly when the Authorization header yields no token; with
    a token, it is 403 exactly when the verifier fails with JsonWebTokenError,
    500 exactly when it fails with any other error (an expired token is one),
    and 404 exactly when the token verifies for a key no row has. *)
Theorem profile_failure_codes P authorization now s :
  let r := profile P authorization now s in
  (code r = 401 <-> bearer authorization = None)
  /\ forall token,
       bearer authorization = Some token ->
       (code r = 403 <-> jwt_verify P token now = Failed "JsonWebTokenError")
       /\ (code r = 500 <->
           exists name, jwt_verify P token now = Failed name
                        /\ name <> "JsonWebTokenError")
       /\ (code r = 404 <->
           exists userId claimed,
             jwt_verify P token now = Decoded userId claimed
             /\ by_id userId s = []).
Proof.
  cbv zeta. unfold profile. split.
  - destruct (bearer authorization) as [token|]; [| done].
    split; [| done].
    destruct (jwt_verify P token now) as [userId claimed|name].
    + by destruct (by_id userId s).
    + by destruct (String.eqb name "JsonWebTokenError").
  - intros token ->.
    destruct (jwt_verify P token now) as [userId claimed|name].
    + destruct (by_id userId s) as [|u us] eqn:Hrow; cbn;
        repeat split; intros H; try discriminate H;
        try (by destruct H as (? & H & _)); eauto.
      destruct H as (? & ? & [= <- <-] & H). by rewrite Hrow in H.
    + destruct (String.eqb_spec name "JsonWebTokenError") as [-> | Hname]; cbn;
        repeat split; intros H; try discriminate H; try congruence;
        try (by destruct H as (? & ? & H & _)).
      * by destruct H as (? & [= <-] & H).
      * by exists name.
Qed.

Lemma profile_failure_codes_witness :
  code (profile ConcreteServices.platform (Some "Bearer eyJ.u1.sig") 90000
          (snd ConcreteServices.ann)) = 500.
Proof.
  refine (proj2 (proj1 (proj2 (proj2 (profile_failure_codes
            ConcreteServices.platform (Some "Bearer eyJ.u1.sig") 90000
            (snd ConcreteServices.ann)) "eyJ.u1.sig" eq_refl))) _).
  exists "TokenExpiredError". split; [reflexivity | discriminate].
Defined.

(** X19.  Registration followed by the profile route.  In a well-formed
    store, after a registration answered 201 with a token of one non-empty
    word, a profile request whose Authorization header is any one-word
    scheme, a space and that token, made while the verifier still decodes
    the token to the registered key, answers 200 with the very user object
    the registration returned. *)
Theorem profile_after_register
    P email password firstName lastName salt now s message user token s'
    scheme claimed now' :
  users_wf s ->
  register P email password firstName lastName salt now s
  = (Response 201 (JSession message user token), s') ->
  spaceless scheme = true -> spaceless token = true -> token <> EmptyString ->
  jwt_verify P token now' = Decoded (Profile.id user) claimed ->
  profile P (Some (scheme +:+ " " +:+ token)) now' s'
  = Response 200 (JProfile user).
Proof.
  intros Hwf. revert message user token s'.
  apply (register_elim
           (fun out =>
              forall message user token s',
                out = (Response 201 (JSession message user token), s') ->
                spaceless scheme = true -> spaceless token = true ->
                token <> EmptyString ->
                jwt_verify P token now' = Decoded (Profile.id user) claimed ->
                profile P (Some (scheme +:+ " " +:+ token)) now' s'
                = Response 200 (JProfile user)));
    try (intros; discriminate).
  intros e p -> -> _ _ _ _ row message user token s' [= <- <- <- <-] Hs Ht Hne Hv.
  unfold profile. rewrite bearer_second_word by done. rewrite Hv.
  unfold by_id. cbn [users public_view Profile.id UserRow.id row].
  rewrite List.filter_app.
  destruct Hwf as (Hbelow & _ & _).
  rewrite by_id_fresh by done.
  cbn. by rewrite Z.eqb_refl.
Qed.

Lemma profile_after_register_witness :
  code (profile ConcreteServices.platform (Some "Bearer eyJ.u1.sig") 3600
          (snd ConcreteServices.ann)) = 200.
Proof.
  assert (users_wf initial) as Hinit by (repeat split; cbn; constructor).
  assert ("eyJ.u1.sig" <> EmptyString) as Hne by discriminate.
  exact (f_equal code
           (profile_after_register ConcreteServices.platform
              (Some "ann@example.org") (Some "s3cret") (Some "Ann") None "salt" 10
              initial _ _ _ _ "Bearer" "ann@example.org" 3600 Hinit eq_refl
              eq_refl eq_refl Hne eq_refl)).
Defined.

Local Instance joined_later_transitive : Transitive joined_later.
Proof. unfold joined_later. intros a b c ??. lia. Qed.

Local Instance joined_later_total : Total joined_later.
Proof. unfold joined_later. intros a b. lia. Qed.

(** X25.  The listing of users.  [GET /users] takes no credential and
    always answers 200 with every row of the table, each exactly once and in
    its public view (no password hash), the later created first, and with
    their number as total. *)
Theorem getUsers_lists_everyone s :
  exists rows,
    getUsers s
    = Response 200 (JUsers (map public_view rows) (Z.of_nat (length (users s))))
    /\ rows ≡ₚ users s
    /\ StronglySorted joined_later rows.
Proof.
  exists (merge_sort joined_later (users s)).
  split; [| split].
  - unfold getUsers. cbv zeta.
    by rewrite (Permutation_length (merge_sort_Permutation joined_later (users s))).
  - apply merge_sort_Permutation.
  - apply (StronglySorted_merge_sort joined_later).
Qed.

End UserServiceFacts.


(* ===================================================================== *)
(** * Facts about the Product service *)
(* ===================================================================== *)

Module ProductServiceFacts.
Import ProductService.
Section Facts.
Context {N : JsNumber} {T : JsTruthy}.
Variable castable : string -> bool.

Lemma missing_false field :
  missing field = false <-> exists v, field = Some v /\ v <> EmptyString.
Proof.
  destruct field as [v|]; cbn; [| split; [done | by intros (? & ? & _)]].
  unfold JsString.truthy.
  destruct (String.eqb_spec v EmptyString) as [-> | Hv]; cbn.
  - split; [done |]. by intros (? & [= <-] & ?).
  - split; [by eauto |]. done.
Qed.

Lemma missing_num_false field :
  missing_num field = false <-> exists n, field = Some n /\ num_truthy n = true.
Proof.
  destruct field as [n|]; cbn; [| split; [done | by intros (? & ? & _)]].
  destruct (num_truthy n) eqn:E; cbn.
  - split; [by eauto |]. done.
  - split; [done |]. intros (? & [= <-] & H). by rewrite E in H.
Qed.

Lemma find_absent id (c : collection) :
  existsb (has_id id) c = false -> List.find (has_id id) c = None.
Proof.
  induction c as [|p c IH]; [done |]. cbn.
  destruct (has_id id p); [done |]. exact IH.
Qed.

Lemma find_app_absent id (c : collection) p :
  List.find (has_id id) c = None ->
  List.find (has_id id) (c ++ [p]) = if has_id id p then Some p else None.
Proof.
  induction c as [|q c IH]; [done |]. cbn.
  destruct (has_id id q); [done |]. exact IH.
Qed.

Lemma find_app_other id (c : collection) p :
  has_id id p = false ->
  List.find (has_id id) (c ++ [p]) = List.find (has_id id) c.
Proof.
  intros Hp. induction c as [|q c IH]; cbn; [by rewrite Hp |].
  by destruct (has_id id q).
Qed.

Lemma find_update_one id now (c : collection) p :
  List.find (has_id id) c = Some p ->
  List.find (has_id id) (update_one id (deactivate now) c)
  = Some (deactivate now p).
Proof.
  induction c as [|q c IH]; [done |]. cbn.
  destruct (has_id id q) eqn:E.
  - intros [= <-]. cbn. unfold has_id in *. cbn. by rewrite E.
  - intros H. cbn. rewrite E. by apply IH.
Qed.

Lemma find_update_other id id' now (c : collection) :
  id' <> id ->
  List.find (has_id id') (update_one id (deactivate now) c)
  = List.find (has_id id') c.
Proof.
  intros Hne. induction c as [|q c IH]; [done |]. cbn.
  destruct (has_id id q) eqn:E.
  - cbn. unfold has_id in *. cbn.
    apply String.eqb_eq in E.
    destruct (String.eqb_spec (ProductDoc._id q) id'); [congruence | done].
  - cbn. destruct (has_id id' q); [done | exact IH].
Qed.

Lemma update_one_same_product id now (c : collection) :
  Forall2 same_product c (update_one id (deactivate now) c).
Proof.
  assert (forall p, same_product p p) as Hrefl by (by repeat split).
  induction c as [|q c IH]; [constructor |]. cbn.
  destruct (has_id id q).
  - constructor; [by repeat split |].
    clear IH. induction c; constructor; auto.
  - constructor; auto.
Qed.

(** X20.  What creation requires.  createProduct answers 400 exactly when the
    body lacks a non-empty name, a non-empty description, a truthy price or a
    non-empty category, so a price of zero is refused as missing.  Unless the
    answer is 201 the collection is unchanged; on 201 one document is
    appended: it carries the key drawn, is active, and its price is truthy. *)
Theorem createProduct_requires_truthy_fields body fresh now c :
  let out := createProduct body fresh now c in
  (code (fst out) <> 400 <->
   exists name description price category,
     ProductBody.name body = Some name /\ name <> EmptyString
     /\ ProductBody.description body = Some description
     /\ description <> EmptyString
     /\ ProductBody.price body = Some price /\ num_truthy price = true
     /\ ProductBody.category body = Some category /\ category <> EmptyString)
  /\ (code (fst out) <> 201 -> snd out = c)
  /\ (code (fst out) = 201 ->
      exists product,
        fst out = Response 201 (JSaved "Product created successfully" product)
        /\ snd out = c ++ [product]
        /\ ProductDoc._id product = fresh
        /\ ProductDoc.isActive product = true
        /\ ProductBody.price body = Some (ProductDoc.price product)
        /\ num_truthy (ProductDoc.price product) = true).
Proof.
  cbv zeta. unfold createProduct.
  destruct (missing (ProductBody.name body)) eqn:Hn;
    [cbn; split; [split; [done |] | split; [done | intros H; discriminate H]];
     intros (n & ? & ? & ? & H & ? & _);
     pose proof (proj2 (missing_false _) (ex_intro _ n (conj H ltac:(done))));
     congruence |].
  destruct (missing (ProductBody.description body)) eqn:Hd;
    [cbn; split; [split; [done |] | split; [done | intros H; discriminate H]];
     intros (? & d & ? & ? & _ & _ & H & ? & _);
     pose proof (proj2 (missing_false _) (ex_intro _ d (conj H ltac:(done))));
     congruence |].
  destruct (missing_num (ProductBody.price body)) eqn:Hp;
    [cbn; split; [split; [done |] | split; [done | intros H; discriminate H]];
     intros (? & ? & p & ? & _ & _ & _ & _ & H & ? & _);
     pose proof (proj2 (missing_num_false _) (ex_intro _ p (conj H ltac:(done))));
     congruence |].
  destruct (missing (ProductBody.category body)) eqn:Hc;
    [cbn; split; [split; [done |] | split; [done | intros H; discriminate H]];
     intros (? & ? & ? & cat & _ & _ & _ & _ & _ & _ & H & ?);
     pose proof (proj2 (missing_false _) (ex_intro _ cat (conj H ltac:(done))));
     congruence |].
  apply missing_false in Hn as (n & Hn & Hn'), Hd as (d & Hd & Hd'),
    Hc as (cat & Hc & Hc').
  apply missing_num_false in Hp as (p & Hp & Hp').
  cbn [orb].
  split.
  { split; [intros _; exists n, d, p, cat; by repeat split |].
    intros _. by destruct (existsb (has_id fresh) c). }
  destruct (existsb (has_id fresh) c); cbn [fst snd code].
  - split; [done |]. intros H; discriminate H.
  - split; [done |]. intros _. eexists. split; [reflexivity |].
    split; [reflexivity |]. cbn. rewrite Hp. by repeat split.
Qed.

(** X21.  A created product can be read back.  When createProduct answers
    201 for a castable key, getProduct on that key answers 200 with the very
    document of the creation answer, and the answer for any other key is what
    it was before. *)
Theorem created_product_can_be_read_back body fresh now c :
  castable fresh = true ->
  let out := createProduct body fresh now c in
  code (fst out) = 201 ->
  (exists product,
     payload (fst out) = JSaved "Product created successfully" product
     /\ getProduct castable fresh (snd out) = Response 200 (JProduct product))
  /\ forall id, id <> fresh ->
                getProduct castable id (snd out) = getProduct castable id c.
Proof.
  intros Hcast. cbv zeta. unfold createProduct.
  destruct (_ || _ || _ || _)%bool; [intros H; discriminate H |].
  destruct (existsb (has_id fresh) c) eqn:Hfresh; [intros H; discriminate H |].
  intros _. cbn [fst snd payload]. split.
  - eexists. split; [reflexivity |].
    unfold getProduct, findById. rewrite Hcast.
    rewrite find_app_absent by (by apply find_absent).
    unfold has_id at 1. cbn [ProductDoc._id]. by rewrite String.eqb_refl.
  - intros id Hid. unfold getProduct, findById.
    destruct (castable id); [| done].
    rewrite find_app_other; [done |].
    unfold has_id. cbn. destruct (String.eqb_spec fresh id); [congruence | done].
Qed.

(** X22.  Deletion hides a product and removes nothing.  When deleteProduct
    answers 200 for a castable key, getProduct on that key answers 404 with
    the body of an unknown key, yet the collection holds the same documents,
    changed in their activity flag and update stamp at most; the answers for
    other keys are unchanged, and deleting the same key again still answers
    200. *)
Theorem deleteProduct_hides_product id now c :
  castable id = true ->
  let out := deleteProduct castable id now c in
  code (fst out) = 200 ->
  getProduct castable id (snd out) = Response 404 (JError "Product not found")
  /\ Forall2 same_product c (snd out)
  /\ (forall id', id' <> id ->
                  getProduct castable id' (snd out) = getProduct castable id' c)
  /\ forall now',
       fst (deleteProduct castable id now' (snd out))
       = Response 200 (JMessage "Product deleted successfully").
Proof.
  intros Hcast. cbv zeta.
  unfold deleteProduct, findByIdAndUpdate, findById. rewrite Hcast.
  destruct (List.find (has_id id) c) as [p|] eqn:Hfind;
    [| intros H; discriminate H].
  intros _. cbn [fst snd].
  split; [| split; [| split]].
  - unfold getProduct, findById. rewrite Hcast.
    by rewrite (find_update_one id now c p).
  - apply update_one_same_product.
  - intros id' Hid'. unfold getProduct, findById.
    destruct (castable id'); [| done].
    by rewrite find_update_other.
  - intros now'. by rewrite (find_update_one id now c p).
Qed.

End Facts.
End ProductServiceFacts.


(* ===================================================================== *)
(** * The Order service in front of the Product service *)
(* ===================================================================== *)

Module ShopFacts.
Section Facts.
Context {N : JsNumber} {S : Schema}.
Variable castable : string -> bool.

(** X23.  A deleted product cannot be ordered.  Once deleteProduct answered
    200 for a castable key, a creation request whose items before [x] are all
    answered, whose item [x] names that key, and whose call for it is served
    by getProduct on the collection left by the deletion, answers 400
    "Invalid product" for that key and stores no row. *)
Theorem createOrder_refuses_deleted_product
    id now c products userId before x after prods shippingAddress instant s :
  castable id = true ->
  ProductService.code (fst (ProductService.deleteProduct castable id now c)) = 200 ->
  Item.productId x = id ->
  OrderService.answers products 0 before = map Some prods ->
  products (length before) id
  = ProductService.axios_get
      (ProductService.getProduct castable id
         (snd (ProductService.deleteProduct castable id now c))) ->
  let out :=
    OrderService.createOrder products userId (Some (before ++ x :: after))
      shippingAddress instant s in
  fst out
  = OrderService.Returned
      (OrderService.Response 400
         (OrderService.JError ("Invalid product: " +:+ id)))
  /\ OrderService.orders (snd out) = OrderService.orders s
  /\ OrderService.order_items (snd out) = OrderService.order_items s.
Proof.
  intros Hcast Hdel Hx Hbefore Hserved. cbv zeta.
  assert (products (length before) (Item.productId x) = None) as Hnone.
  { rewrite Hx, Hserved.
    unfold ProductService.deleteProduct, ProductService.findByIdAndUpdate,
      ProductService.findById in *.
    rewrite Hcast in *.
    destruct (List.find (ProductService.has_id id) c) as [p|] eqn:Hfind;
      [| discriminate Hdel].
    cbn [snd]. unfold ProductService.getProduct, ProductService.findById.
    rewrite Hcast.
    by rewrite (ProductServiceFacts.find_update_one id now c p). }
  rewrite (OrderServiceFacts.createOrder_missing_product products userId before
             x after prods) by done.
  by rewrite Hx.
Qed.

End Facts.
End ShopFacts.

(* ===================================================================== *)
(** * The Product service's facts on sample requests *)
(* ===================================================================== *)

Module ProductServiceExamples.
Import ProductService ConcreteServices.

Lemma createProduct_requires_truthy_fields_witness :
  snd (createProduct (T := nonzero) free_mug key 5 stocked) = stocked.
Proof.
  destruct (ProductServiceFacts.createProduct_requires_truthy_fields
              (T := nonzero) free_mug key 5 stocked) as (_ & Hkeep & _).
  apply Hkeep. vm_compute. discriminate.
Defined.

Lemma created_product_can_be_read_back_witness :
  code (getProduct hex24 key stocked) = 200.
Proof.
  destruct (ProductServiceFacts.created_product_can_be_read_back
              (T := nonzero) hex24 mug key 5 [] eq_refl eq_refl)
    as ((product & _ & Hget) & _).
  exact (f_equal code Hget).
Defined.

Lemma deleteProduct_hides_product_witness :
  getProduct hex24 key cleared = Response 404 (JError "Product not found")
  /\ length cleared = 1%nat.
Proof.
  split; [| reflexivity].
  exact (proj1 (ProductServiceFacts.deleteProduct_hides_product
                  hex24 key 6 stocked eq_refl eq_refl)).
Defined.

Lemma createOrder_refuses_deleted_product_witness :
  fst (OrderService.createOrder (S := Concrete.lenient)
         (fun _ productId => axios_get (getProduct hex24 productId cleared))
         7 (Some [Concrete.item key 1]) None 1000
         (OrderService.initial (N := Concrete.integral)))
  = OrderService.Returned
      (OrderService.Response 400
         (OrderService.JError ("Invalid product: " +:+ key))).
Proof.
  exact (proj1 (ShopFacts.createOrder_refuses_deleted_product
                  (S := Concrete.lenient) hex24 key 6 stocked
                  (fun _ productId => axios_get (getProduct hex24 productId cleared))
                  7 [] (Concrete.item key 1) [] [] None 1000
                  (OrderService.initial (N := Concrete.integral))
                  eq_refl eq_refl eq_refl eq_refl eq_refl)).
Defined.

End ProductServiceExamples.
